(** * A CRUD user-management service: validation, store access and paging

    The development embeds the user schema ([user.schema.ts]), the
    [UsersService] and the [UsersController] of the repository, together
    with the parts of their environment that their behaviour depends on:
    a fragment of the JavaScript built-ins, of the schema-validation
    library, of the object-relational store and of the HTTP framework.

    The store is threaded through the calls: an operation that writes
    takes the store and returns the store it leaves, next to its
    outcome, which is a value or an exception. The requests of a run are
    executed one after the other. *)

From Stdlib Require Import ZArith Lia Ascii String List Bool.
From stdpp Require Import base decidable option list strings pretty.

Local Open Scope string_scope.
Local Open Scope Z_scope.
Local Open Scope list_scope.

Set Warnings "-register-all".

(** ** JavaScript built-ins used by the code *)

Module Js.

(** Numbers. The numeric variables of the code hold the results of
    [parseInt], of a row count, and of arithmetic on them: integers,
    [NaN] and the infinities. A finite value is kept as the exact
    integer (a double is exact up to 2^53, far above any row count; the
    rounding of larger values is left out), and the negative zero is
    identified with [Fin 0]: both are falsy and equal under every
    operation used here. *)
Inductive number : Type :=
| NaN
| PInf
| NInf
| Fin (z : Z).

Global Instance number_eq_dec : EqDecision number.
Proof. solve_decision. Defined.

Definition isFinite (n : number) : bool :=
  match n with Fin _ => true | _ => false end.

(** Truthiness of a number: [NaN] and zero are falsy. *)
Definition truthy (n : number) : bool :=
  match n with
  | NaN => false
  | Fin z => negb (z =? 0)
  | _ => true
  end.

(** [x || d] where [x] is a number or [undefined]. *)
Definition or_else (x : option number) (d : number) : number :=
  match x with
  | Some n => if truthy n then n else d
  | None => d
  end.

(** [a < b]; every comparison with [NaN] is false. *)
Definition lt (a b : number) : bool :=
  match a, b with
  | NaN, _ | _, NaN => false
  | _, NInf => false
  | NInf, _ => true
  | PInf, _ => false
  | Fin _, PInf => true
  | Fin x, Fin y => x <? y
  end.

Definition gt (a b : number) : bool := lt b a.

Definition Math_min (a b : number) : number :=
  match a, b with
  | NaN, _ | _, NaN => NaN
  | NInf, _ | _, NInf => NInf
  | PInf, x | x, PInf => x
  | Fin x, Fin y => Fin (Z.min x y)
  end.

Definition Math_max (a b : number) : number :=
  match a, b with
  | NaN, _ | _, NaN => NaN
  | PInf, _ | _, PInf => PInf
  | NInf, x | x, NInf => x
  | Fin x, Fin y => Fin (Z.max x y)
  end.

(** [a - b] *)
Definition sub (a b : number) : number :=
  match a, b with
  | NaN, _ | _, NaN => NaN
  | PInf, PInf | NInf, NInf => NaN
  | PInf, _ | _, NInf => PInf
  | NInf, _ | _, PInf => NInf
  | Fin x, Fin y => Fin (x - y)
  end.

Definition signed_inf (positive : bool) : number :=
  if positive then PInf else NInf.

(** [a * b]; zero times an infinity is [NaN]. *)
Definition mul (a b : number) : number :=
  match a, b with
  | NaN, _ | _, NaN => NaN
  | Fin x, Fin y => Fin (x * y)
  | Fin x, PInf | PInf, Fin x =>
      if x =? 0 then NaN else signed_inf (0 <? x)
  | Fin x, NInf | NInf, Fin x =>
      if x =? 0 then NaN else signed_inf (x <? 0)
  | PInf, PInf | NInf, NInf => PInf
  | PInf, NInf | NInf, PInf => NInf
  end.

(** [Math.ceil(a / b)]. The quotient of two integers is in general not
    an integer, so the division and the rounding are taken together:
    for finite operands the result is the ceiling of the exact
    quotient. *)
Definition Math_ceil_div (a b : number) : number :=
  match a, b with
  | NaN, _ | _, NaN => NaN
  | Fin x, Fin y =>
      if y =? 0 then
        (if x =? 0 then NaN else signed_inf (0 <? x))
      else Fin (- ((- x) / y))
  | Fin _, _ => Fin 0
  | PInf, Fin y => signed_inf (0 <=? y)
  | NInf, Fin y => signed_inf (y <? 0)
  | _, _ => NaN
  end.

(** Strings. A string is a sequence of characters of the 8-bit
    alphabet; the case mapping and the white space of the built-ins are
    those of that alphabet's ASCII part. *)

Definition is_upper (c : ascii) : bool :=
  let n := nat_of_ascii c in (65 <=? n)%nat && (n <=? 90)%nat.

Definition lower_char (c : ascii) : ascii :=
  if is_upper c then ascii_of_nat (nat_of_ascii c + 32) else c.

Definition is_space (c : ascii) : bool :=
  let n := nat_of_ascii c in
  ((9 <=? n)%nat && (n <=? 13)%nat) || (n =? 32)%nat.

Definition chars (s : string) : list ascii := list_ascii_of_string s.
Definition of_chars (l : list ascii) : string := string_of_list_ascii l.

(** [s.toLowerCase()] *)
Definition toLowerCase (s : string) : string :=
  of_chars (map lower_char (chars s)).

Fixpoint trim_start (l : list ascii) : list ascii :=
  match l with
  | c :: l' => if is_space c then trim_start l' else l
  | [] => []
  end.

Definition trim_end (l : list ascii) : list ascii :=
  rev (trim_start (rev l)).

(** [s.trim()] *)
Definition trim (s : string) : string :=
  of_chars (trim_end (trim_start (chars s))).

Fixpoint starts_with (p l : list ascii) : bool :=
  match p, l with
  | [], _ => true
  | a :: p', b :: l' => bool_decide (a = b) && starts_with p' l'
  | _ :: _, [] => false
  end.

Fixpoint includes_chars (l p : list ascii) : bool :=
  starts_with p l ||
  match l with
  | [] => false
  | _ :: l' => includes_chars l' p
  end.

(** [s.includes(p)] *)
Definition includes (s p : string) : bool :=
  includes_chars (chars s) (chars p).

(** [parts.join(sep)] *)
Fixpoint join (sep : string) (parts : list string) : string :=
  match parts with
  | [] => ""
  | [p] => p
  | p :: rest => p +:+ sep +:+ join sep rest
  end.

(** [parseInt(s)] with no radix argument: leading white space is
    skipped, a sign and a [0x]/[0X] prefix are read, and the longest
    run of digits of the radix is the value; no digit gives [NaN]. The
    result is converted to a double, which overflows to an infinity
    from [2^1024 - 2^970] on. *)

Definition digit_value (c : ascii) : option Z :=
  let n := Z.of_nat (nat_of_ascii c) in
  if (48 <=? n) && (n <=? 57) then Some (n - 48)
  else if (97 <=? n) && (n <=? 102) then Some (n - 87)
  else if (65 <=? n) && (n <=? 70) then Some (n - 55)
  else None.

Definition radix_digit (radix : Z) (c : ascii) : option Z :=
  match digit_value c with
  | Some d => if d <? radix then Some d else None
  | None => None
  end.

(** The value of the longest prefix of digits, if it is not empty. *)
Fixpoint read_digits (radix : Z) (acc : option Z) (l : list ascii)
  : option Z :=
  match l with
  | c :: l' =>
      match radix_digit radix c with
      | Some d => read_digits radix (Some (from_option id 0 acc * radix + d)) l'
      | None => acc
      end
  | [] => acc
  end.

Definition overflow_threshold : Z := 2 ^ 1024 - 2 ^ 970.

Definition to_number (negative : bool) (magnitude : Z) : number :=
  if overflow_threshold <=? magnitude
  then signed_inf (negb negative)
  else Fin (if negative then - magnitude else magnitude).

Definition strip_sign (l : list ascii) : bool * list ascii :=
  match l with
  | "-"%char :: l' => (true, l')
  | "+"%char :: l' => (false, l')
  | _ => (false, l)
  end.

Definition strip_radix (l : list ascii) : Z * list ascii :=
  match l with
  | "0"%char :: "x"%char :: l' | "0"%char :: "X"%char :: l' => (16, l')
  | _ => (10, l)
  end.

Definition parseInt (s : string) : number :=
  let '(negative, l1) := strip_sign (trim_start (chars s)) in
  let '(radix, l2) := strip_radix l1 in
  match read_digits radix None l2 with
  | Some m => to_number negative m
  | None => NaN
  end.

(** JSON values, as a request body carries them. [undefined] is not a
    JSON value; where the code can meet it, the model uses [option].
    An object is the list of its properties, looked up by the first
    occurrence of the key (a parsed body has no repeated key). No field
    of the schema is numeric, so a number only needs to be told from the
    other kinds of value and is kept as an integer. *)
Inductive value : Type :=
| Null
| Bool (b : bool)
| Num (z : Z)
| Str (s : string)
| Arr (items : list value)
| Obj (props : list (string * value)).

Fixpoint get_prop (props : list (string * value)) (k : string)
  : option value :=
  match props with
  | (k', v) :: rest => if bool_decide (k' = k) then Some v else get_prop rest k
  | [] => None
  end.

(** Truthiness of a value that may be [undefined]. *)
Definition truthy_value (v : option value) : bool :=
  match v with
  | None | Some Null => false
  | Some (Bool b) => b
  | Some (Num z) => negb (z =? 0)
  | Some (Str s) => negb (bool_decide (s = ""))
  | Some (Arr _) | Some (Obj _) => true
  end.

(** [typeof v] *)
Definition typeof (v : option value) : string :=
  match v with
  | None => "undefined"
  | Some (Bool _) => "boolean"
  | Some (Num _) => "number"
  | Some (Str _) => "string"
  | Some Null | Some (Arr _) | Some (Obj _) => "object"
  end.

Definition Array_isArray (v : option value) : bool :=
  match v with
  | Some (Arr _) => true
  | _ => false
  end.

(** A property key: a name or an array index. *)
Inductive key : Type :=
| Name (s : string)
| Index (i : nat).

Definition key_to_string (k : key) : string :=
  match k with
  | Name s => s
  | Index i => pretty i
  end.

(** [obj?.[key]]: [undefined] on [undefined] and [null], the property
    of an object, the element of an array, the character of a string;
    the properties that primitives and arrays inherit (such as
    [length]) are left out. *)
Definition optional_index (obj : option value) (k : key) : option value :=
  match obj with
  | Some (Obj props) => get_prop props (key_to_string k)
  | Some (Arr items) =>
      match k with
      | Index i => items !! i
      | Name _ => None
      end
  | Some (Str s) =>
      match k with
      | Index i => (fun c => Str (String c "")) <$> (chars s !! i)
      | Name _ => None
      end
  | _ => None
  end.

End Js.

(** ** The schema-validation library

    The fragment of the validation library that [user.schema.ts] uses:
    string schemas with ordered checks, arrays with a minimal length,
    objects (unknown keys are stripped), optional fields, and the issues
    a failed parse reports. *)

Module Zod.
Import Js.

Record issue : Type := Issue { path : list key; message : string }.

Inductive result (A : Type) : Type :=
| Success (data : A)
| Failure (issues : list issue).
Global Arguments Success {A} data.
Global Arguments Failure {A} issues.

Definition map_result {A B} (f : A -> B) (r : result A) : result B :=
  match r with
  | Success a => Success (f a)
  | Failure es => Failure es
  end.

(** Two fields of one object: the issues of both are reported, in
    field order. *)
Definition ap {A B} (rf : result (A -> B)) (ra : result A) : result B :=
  match rf, ra with
  | Success f, Success a => Success (f a)
  | Success _, Failure es => Failure es
  | Failure es, Success _ => Failure es
  | Failure es1, Failure es2 => Failure (es1 ++ es2)
  end.

(** The issues of a nested value carry the key it was found under. *)
Definition under (k : key) (i : issue) : issue :=
  Issue (k :: path i) (message i).

Definition at_key {A} (k : key) (r : result A) : result A :=
  match r with
  | Success a => Success a
  | Failure es => Failure (map (under k) es)
  end.

(** The name the library reports for the type of an input. *)
Definition parsed_type (v : option value) : string :=
  match v with
  | None => "undefined"
  | Some Null => "null"
  | Some (Bool _) => "boolean"
  | Some (Num _) => "number"
  | Some (Str _) => "string"
  | Some (Arr _) => "array"
  | Some (Obj _) => "object"
  end.

(** The library's default message for an input of the wrong type. *)
Definition invalid_type (expected : string) (v : option value) : issue :=
  Issue [] ("Invalid input: expected " +:+ expected +:+ ", received "
            +:+ parsed_type v).

(** A check of a string schema: a test with its message, or a rewrite
    of the value ([trim], [toLowerCase]). Checks run in the order of
    the chain, each on the value the rewrites before it produced; a
    failed test does not stop the later ones. *)
Inductive check : Type :=
| Test (ok : string -> bool) (msg : string)
| Overwrite (f : string -> string).

Definition min (n : nat) (msg : string) : check :=
  Test (fun s => (n <=? String.length s)%nat) msg.
Definition max (n : nat) (msg : string) : check :=
  Test (fun s => (String.length s <=? n)%nat) msg.
Definition refine (p : string -> bool) (msg : string) : check := Test p msg.

Fixpoint run_checks (cs : list check) (s : string) : list issue * string :=
  match cs with
  | [] => ([], s)
  | Test ok msg :: cs' =>
      let '(es, s') := run_checks cs' s in
      ((if ok s then [] else [Issue [] msg]) ++ es, s')
  | Overwrite f :: cs' => run_checks cs' (f s)
  end.

(** A string schema. [type_error] is the schema's own message, when it
    was built with one; it then replaces the default message for an
    input that is not a string. *)
Definition string_schema (type_error : option string) (cs : list check)
    (v : option value) : result string :=
  match v with
  | Some (Str s) =>
      match run_checks cs s with
      | ([], s') => Success s'
      | (es, _) => Failure es
      end
  | _ => Failure [from_option (Issue []) (invalid_type "string" v) type_error]
  end.

(** [z.string()] followed by its checks. *)
Definition z_string (cs : list check) : option value -> result string :=
  string_schema None cs.

(** The library's e-mail pattern. The string does not start with a dot
    and has no two dots in a row; before the first [@] stand characters
    of [A-Za-z0-9_'+-.], the last of them of [A-Za-z0-9_+-]; after it
    stand one or more labels, each a character of [A-Za-z0-9] followed
    by characters of [A-Za-z0-9-] and closed by a dot, and then two or
    more letters. *)

Definition in_range (lo hi : nat) (c : ascii) : bool :=
  let n := nat_of_ascii c in (lo <=? n)%nat && (n <=? hi)%nat.
Definition is_alpha (c : ascii) : bool := in_range 65 90 c || in_range 97 122 c.
Definition is_alnum (c : ascii) : bool := is_alpha c || in_range 48 57 c.
Definition one_of (cs : string) (c : ascii) : bool :=
  bool_decide (c ∈ chars cs).

Definition local_char (c : ascii) : bool := is_alnum c || one_of "_'+-." c.
Definition local_last (c : ascii) : bool := is_alnum c || one_of "_+-" c.
Definition label_char (c : ascii) : bool := is_alnum c || one_of "-" c.

(** The parts of a character sequence before and after the first [sep]. *)
Fixpoint split_first (sep : ascii) (l : list ascii)
  : option (list ascii * list ascii) :=
  match l with
  | [] => None
  | c :: l' =>
      if bool_decide (c = sep) then Some ([], l')
      else match split_first sep l' with
           | Some (a, b) => Some (c :: a, b)
           | None => None
           end
  end.

(** All the pieces between the occurrences of [sep]. *)
Fixpoint split_all (sep : ascii) (l : list ascii) : list (list ascii) :=
  match l with
  | [] => [[]]
  | c :: l' =>
      match split_all sep l' with
      | piece :: pieces =>
          if bool_decide (c = sep) then [] :: piece :: pieces
          else (c :: piece) :: pieces
      | [] => [[c]]
      end
  end.

Definition label_ok (l : list ascii) : bool :=
  match l with
  | c :: rest => is_alnum c && forallb label_char rest
  | [] => false
  end.

Definition tld_ok (l : list ascii) : bool :=
  (2 <=? length l)%nat && forallb is_alpha l.

Definition domain_ok (d : list ascii) : bool :=
  match rev (split_all "."%char d) with
  | tld :: label :: labels =>
      tld_ok tld && forallb label_ok (label :: labels)
  | _ => false
  end.

Definition local_ok (l : list ascii) : bool :=
  match rev l with
  | last :: init => local_last last && forallb local_char init
  | [] => false
  end.

Definition email_pattern (s : string) : bool :=
  let l := chars s in
  match split_first "@"%char l with
  | Some (loc, dom) =>
      negb (starts_with ["."%char] l)
      && negb (includes_chars l ["."%char; "."%char])
      && local_ok loc
      && domain_ok dom
  | None => false
  end.

(** [z.email(msg)] followed by its checks: the pattern is tested first,
    on the input as it came, and [msg] is the schema's message for both
    a non-string input and a string that does not match. *)
Definition z_email (msg : string) (cs : list check)
  : option value -> result string :=
  string_schema (Some msg) (Test email_pattern msg :: cs).

(** [inner.transform(f)]: [f] runs on the value of a successful parse. *)
Definition transform {A B} (f : A -> B) (inner : option value -> result A)
  : option value -> result B :=
  fun v => map_result f (inner v).

Fixpoint parse_items {A} (elem : option value -> result A) (i : nat)
    (items : list value) : result (list A) :=
  match items with
  | [] => Success []
  | x :: rest =>
      ap (map_result cons (at_key (Index i) (elem (Some x))))
         (parse_items elem (S i) rest)
  end.

(** [z.array(elem).min(n, msg)]: the issues of the elements, each under
    its index, then the length check. (The library skips the length
    check after an element of the wrong type; with [n = 1] the check
    fails on the empty array only, where there is no element.) *)
Definition z_array {A} (elem : option value -> result A) (n : nat)
    (msg : string) (v : option value) : result (list A) :=
  match v with
  | Some (Arr items) =>
      ap (map_result (fun l _ => l) (parse_items elem 0 items))
         (if (n <=? length items)%nat then Success tt
          else Failure [Issue [] msg])
  | _ => Failure [invalid_type "array" v]
  end.

(** [z.object(shape)]: the fields are read from the properties by
    [fields]; an input that is not an object is a single issue. *)
Definition z_object {A} (fields : list (string * value) -> result A)
    (v : option value) : result A :=
  match v with
  | Some (Obj props) => fields props
  | _ => Failure [invalid_type "object" v]
  end.

(** A required field of an object shape. *)
Definition field {A} (props : list (string * value)) (name : string)
    (schema : option value -> result A) : result A :=
  at_key (Name name) (schema (get_prop props name)).

(** [schema.optional()]: a missing value is accepted and left out. *)
Definition optional {A} (schema : option value -> result A)
  : option value -> result (option A) :=
  fun v =>
    match v with
    | None => Success None
    | Some _ => map_result Some (schema v)
    end.

End Zod.

(** ** The environment the program is deployed in

    Two facts are fixed outside the sources read here: which date strings
    the engine's [Date.parse] accepts (beyond the ISO format its grammar
    is left to the engine), and whether the users table declares a unique
    index on the email column, in which case the store refuses a write
    that would repeat an email. Everything below holds for every choice
    of both. *)

Class Runtime : Type := {
  Date_parse : string -> option Z;
  email_unique_index : bool;
}.

(** ** [user.schema.ts] *)

Module Schema.
Import Js Zod.

(** A [Date]: its time value, or none for an invalid date. *)
Definition Date : Type := option Z.

Module Skill.
Record t : Type := Build { field : string; tags : list string }.
End Skill.

Module CreateUserDto.
Record t : Type := Build {
  name : string;
  ext : string;
  phone : string;
  email : string;
  dateOfBirth : Date;
  password : string;
  skills : list Skill.t;
}.
End CreateUserDto.

Module UpdateUserDto.
Record t : Type := Build {
  name : option string;
  ext : option string;
  phone : option string;
  email : option string;
  dateOfBirth : option Date;
  password : option string;
  skills : option (list Skill.t);
}.
End UpdateUserDto.

(** The row type of the users table. The time stamps are readings of
    the store's clock. *)
Module User.
Record t : Type := Build {
  id : string;
  name : string;
  ext : string;
  phone : string;
  email : string;
  dateOfBirth : Date;
  password : string;
  skills : list Skill.t;
  createdAt : nat;
  updatedAt : nat;
}.
End User.

Module PaginationQuery.
Record t : Type := Build {
  page : option number;
  limit : option number;
}.
End PaginationQuery.

Section Schemas.
Context `{!Runtime}.

Definition name_schema : option value -> result string :=
  z_string [min 2 "Name must be at least 2 characters long";
            max 100 "Name must be less than 100 characters";
            Overwrite trim].

Definition ext_schema : option value -> result string :=
  z_string [min 1 "Phone country code is required"; Overwrite trim].

Definition phone_schema : option value -> result string :=
  z_string [min 5 "Phone number must be at least 5 characters long";
            Overwrite trim].

Definition email_schema : option value -> result string :=
  z_email "Please provide a valid email address"
          [Overwrite trim; Overwrite toLowerCase].

Definition dateOfBirth_schema : option value -> result Date :=
  transform (fun val => Date_parse val)
    (z_string [refine (fun val => bool_decide (is_Some (Date_parse val)))
                      "Date of birth must be a valid date"]).

Definition password_schema : option value -> result string :=
  z_string [min 6 "Password must be at least 6 characters long";
            max 100 "Password must be less than 100 characters"].

Definition skill_schema : option value -> result Skill.t :=
  z_object (fun props =>
    ap (ap (Success Skill.Build)
           (field props "field"
              (z_string [min 3 "Skill field must be at least 3 characters long";
                         Overwrite trim])))
       (field props "tags"
          (z_array
             (z_string [min 3 "Each skill tag must be at least 3 characters long";
                        Overwrite trim])
             1 "At least one skill tag is required"))).

Definition skills_schema : option value -> result (list Skill.t) :=
  z_array skill_schema 1 "At least one skill is required".

(** Schema for data sent from the frontend (without id). *)
Definition CreateUserSchema : option value -> result CreateUserDto.t :=
  z_object (fun props =>
    ap (ap (ap (ap (ap (ap (ap (Success CreateUserDto.Build)
      (field props "name" name_schema))
      (field props "ext" ext_schema))
      (field props "phone" phone_schema))
      (field props "email" email_schema))
      (field props "dateOfBirth" dateOfBirth_schema))
      (field props "password" password_schema))
      (field props "skills" skills_schema)).

(** Schema for updating a user: [CreateUserSchema.partial()], the same
    shape with every field optional. *)
Definition UpdateUserSchema : option value -> result UpdateUserDto.t :=
  z_object (fun props =>
    ap (ap (ap (ap (ap (ap (ap (Success UpdateUserDto.Build)
      (field props "name" (optional name_schema)))
      (field props "ext" (optional ext_schema)))
      (field props "phone" (optional phone_schema)))
      (field props "email" (optional email_schema)))
      (field props "dateOfBirth" (optional dateOfBirth_schema)))
      (field props "password" (optional password_schema)))
      (field props "skills" (optional skills_schema))).

(** [schema.safeParse(data)] *)
Definition safeParse {A} (schema : option value -> result A)
    (data : option value) : result A :=
  schema data.

End Schemas.
End Schema.

(** ** The object-relational store *)

(** Modelled from the spec: the users table and the store primitives the
    service calls (count, findMany, findUnique, findFirst, create, update,
    delete, keyed by identifier and by email, ordered by creation time).
    The table's declaration and the mapper are not among the sources. The
    store assigns the identifier and the time stamps from a clock that
    advances with every write. *)

Module Prisma.
Import Schema.

Module UserCreateInput.
Record t : Type := Build {
  name : string;
  ext : string;
  phone : string;
  email : string;
  dateOfBirth : Date;
  password : string;
  skills : list Skill.t;
}.
End UserCreateInput.

(** The change set of an update: the columns to overwrite. The
    identifier is a column like the others as far as the store is
    concerned. *)
Module UserUpdateInput.
Record t : Type := Build {
  id : option string;
  name : option string;
  ext : option string;
  phone : option string;
  email : option string;
  dateOfBirth : option Date;
  password : option string;
  skills : option (list Skill.t);
}.
End UserUpdateInput.

(** Modelled from the spec: the users table, as the rows in the order
    of their insertion, and the clock of the store. *)
Record Store : Type := { rows : list User.t; clock : nat }.

Definition empty : Store := {| rows := []; clock := 0 |}.

Definition has_id (id : string) (u : User.t) : bool :=
  bool_decide (User.id u = id).
Definition has_email (email : string) (u : User.t) : bool :=
  bool_decide (User.email u = email).

(** [user.count()] *)
Definition count (st : Store) : nat := length (rows st).

(** [user.findUnique({ where: { id } })] *)
Definition findUnique_id (st : Store) (id : string) : option User.t :=
  find (has_id id) (rows st).

(** [user.findUnique({ where: { email } })] *)
Definition findUnique_email (st : Store) (email : string) : option User.t :=
  find (has_email email) (rows st).

(** [user.findFirst({ where: { email, NOT: { id } } })] *)
Definition findFirst_email_not_id (st : Store) (email id : string)
  : option User.t :=
  find (fun u => has_email email u && negb (has_id id u)) (rows st).

Fixpoint insert_desc (u : User.t) (l : list User.t) : list User.t :=
  match l with
  | [] => [u]
  | v :: l' =>
      if (User.createdAt v <? User.createdAt u)%nat then u :: l
      else v :: insert_desc u l'
  end.

(** [orderBy: { createdAt: 'desc' }] *)
Definition newest_first (l : list User.t) : list User.t :=
  foldr insert_desc [] l.

(** [user.findMany({ skip, take, orderBy: { createdAt: 'desc' } })].
    The store refuses arguments that are not integers and a negative
    [skip]; a negative [take] counts from the end of the ordering. The
    bounds of the store's integer type are left out. *)
Definition findMany (st : Store) (skip take : Js.number)
  : option (list User.t) :=
  match skip, take with
  | Js.Fin s, Js.Fin t =>
      if s <? 0 then None
      else
        let l := newest_first (rows st) in
        Some (if 0 <=? t
              then firstn (Z.to_nat t) (skipn (Z.to_nat s) l)
              else rev (firstn (Z.to_nat (- t)) (skipn (Z.to_nat s) (rev l))))
  | _, _ => None
  end.

Section Writes.
Context `{!Runtime}.

(** Whether the unique index refuses [email] for a row other than the
    rows called [id]. *)
Definition email_conflict (st : Store) (email : string)
    (self : option string) : bool :=
  email_unique_index &&
  existsb (fun u => has_email email u &&
                    negb (bool_decide (self = Some (User.id u))))
          (rows st).

(** [user.create({ data })]: the new row, or a refusal. *)
Definition create (st : Store) (data : UserCreateInput.t)
  : option (User.t * Store) :=
  if email_conflict st (UserCreateInput.email data) None then None
  else
    let u := {|
      User.id := pretty (clock st);
      User.name := UserCreateInput.name data;
      User.ext := UserCreateInput.ext data;
      User.phone := UserCreateInput.phone data;
      User.email := UserCreateInput.email data;
      User.dateOfBirth := UserCreateInput.dateOfBirth data;
      User.password := UserCreateInput.password data;
      User.skills := UserCreateInput.skills data;
      User.createdAt := clock st;
      User.updatedAt := clock st |} in
    Some (u, {| rows := rows st ++ [u]; clock := S (clock st) |}).

Definition apply_update (data : UserUpdateInput.t) (now : nat)
    (u : User.t) : User.t :=
  {| User.id := default (User.id u) (UserUpdateInput.id data);
     User.name := default (User.name u) (UserUpdateInput.name data);
     User.ext := default (User.ext u) (UserUpdateInput.ext data);
     User.phone := default (User.phone u) (UserUpdateInput.phone data);
     User.email := default (User.email u) (UserUpdateInput.email data);
     User.dateOfBirth :=
       default (User.dateOfBirth u) (UserUpdateInput.dateOfBirth data);
     User.password :=
       default (User.password u) (UserUpdateInput.password data);
     User.skills := default (User.skills u) (UserUpdateInput.skills data);
     User.createdAt := User.createdAt u;
     User.updatedAt := now |}.

Fixpoint replace_row (id : string) (u' : User.t) (l : list User.t)
  : list User.t :=
  match l with
  | [] => []
  | u :: l' => if has_id id u then u' :: l' else u :: replace_row id u' l'
  end.

Fixpoint remove_row (id : string) (l : list User.t) : list User.t :=
  match l with
  | [] => []
  | u :: l' => if has_id id u then l' else u :: remove_row id l'
  end.

(** [user.update({ where: { id }, data })]: the updated row, or a
    refusal (no such row, or a new identifier or email that another
    row holds). *)
Definition update (st : Store) (id : string) (data : UserUpdateInput.t)
  : option (User.t * Store) :=
  match findUnique_id st id with
  | None => None
  | Some u =>
      let u' := apply_update data (clock st) u in
      if from_option (fun e => email_conflict st e (Some id)) false
           (UserUpdateInput.email data)
         || (negb (has_id id u') && existsb (has_id (User.id u')) (rows st))
      then None
      else Some (u', {| rows := replace_row id u' (rows st);
                        clock := S (clock st) |})
  end.

(** [user.delete({ where: { id } })]: the deleted row, or a refusal
    when there is no such row. *)
Definition delete (st : Store) (id : string) : option (User.t * Store) :=
  match findUnique_id st id with
  | None => None
  | Some u => Some (u, {| rows := remove_row id (rows st);
                          clock := S (clock st) |})
  end.
End Writes.
End Prisma.

(** ** The HTTP framework: exceptions and responses *)

Module Nest.

(** One entry of the [errors] array of a response. *)
Module FieldError.
Record t : Type := Build {
  field : string;
  message : string;
  receivedValue : option Js.value;
}.
End FieldError.

(** The response object of an HTTP exception. *)
Module ResponseBody.
Record t : Type := Build {
  message : string;
  errors : option (list FieldError.t);
  error : option string;
  statusCode : option nat;
}.
End ResponseBody.

Inductive exception : Type :=
| BadRequestException (response : ResponseBody.t)
| PrismaClientError (reason : string).

(** [new BadRequestException(message)]: the framework builds the body. *)
Definition BadRequest_text (message : string) : exception :=
  BadRequestException
    (ResponseBody.Build message None (Some "Bad Request") (Some 400%nat)).

(** [new BadRequestException({ message, errors })]: the object is the
    body. *)
Definition BadRequest_object (message : string)
    (errors : list FieldError.t) : exception :=
  BadRequestException (ResponseBody.Build message (Some errors) None None).

(** [error.message] *)
Definition exn_message (e : exception) : string :=
  match e with
  | BadRequestException r => ResponseBody.message r
  | PrismaClientError reason => reason
  end.

(** What a call comes to: a value, or an exception. *)
Inductive outcome (A : Type) : Type :=
| Return (a : A)
| Throw (e : exception).
Global Arguments Return {A} a.
Global Arguments Throw {A} e.

Module HttpStatus.
Definition OK : nat := 200.
Definition CREATED : nat := 201.
Definition BAD_REQUEST : nat := 400.
Definition INTERNAL_SERVER_ERROR : nat := 500.
End HttpStatus.

Record HttpResponse (A : Type) : Type := {
  status : nat;
  body : A + ResponseBody.t;
}.
Global Arguments status {A} _.
Global Arguments body {A} _.

(** The answer to a request: a value the handler returns is sent with
    the handler's status code ([@HttpCode], or the default of the
    method); an exception it lets through is sent with the status and
    the body of the exception. *)
Definition respond {A} (code : nat) (o : outcome A) : HttpResponse A :=
  match o with
  | Return a => {| status := code; body := inl a |}
  | Throw (BadRequestException r) =>
      {| status := HttpStatus.BAD_REQUEST; body := inr r |}
  | Throw (PrismaClientError _) =>
      {| status := HttpStatus.INTERNAL_SERVER_ERROR;
         body := inr (ResponseBody.Build "Internal server error" None None
                        (Some HttpStatus.INTERNAL_SERVER_ERROR)) |}
  end.

End Nest.

(** ** [UsersService] *)

Module UsersService.
Import Js Schema Nest.

(** The result of a listing. *)
Module Page.
Record t : Type := Build {
  data : list User.t;
  totalUsers : number;
  totalPages : number;
  currentPage : number;
  limit : number;
  hasNext : bool;
  hasPrev : bool;
}.
End Page.

Section Service.
Context `{!Runtime}.

(** The body is null, undefined, or not an object. *)
Definition invalid_body (userData : option value) : bool :=
  negb (truthy_value userData)
  || negb (bool_decide (typeof userData = "object"))
  || Array_isArray userData.

(** One validation issue in the readable format of [createUser]. *)
Definition format_issue (userData : option value) (err : Zod.issue)
  : FieldError.t :=
  let field := join "." (map key_to_string (Zod.path err)) in
  let field := if bool_decide (field = "") then "root" else field in
  let message := Zod.message err in
  let message :=
    if negb (includes (toLowerCase message) (toLowerCase field))
       && negb (bool_decide (field = "root"))
    then field +:+ ": " +:+ message
    else message in
  {| FieldError.field := field;
     FieldError.message := message;
     FieldError.receivedValue :=
       fold_left optional_index (Zod.path err) userData |}.

Definition createUser (st : Prisma.Store) (userData : option value)
  : outcome User.t * Prisma.Store :=
  if invalid_body userData then
    (Throw (BadRequest_object "Invalid request body"
              [FieldError.Build "body"
                 "Request body must be a valid JSON object" None]), st)
  else
    match safeParse CreateUserSchema userData with
    | Zod.Failure issues =>
        (Throw (BadRequest_object "Validation failed"
                  (map (format_issue userData) issues)), st)
    | Zod.Success data =>
        match Prisma.findUnique_email st (CreateUserDto.email data) with
        | Some existingUser =>
            (Throw (BadRequest_object "User already exists"
                      [FieldError.Build "email"
                         "User with this email already exists"
                         (Some (Str (CreateUserDto.email data)))]), st)
        | None =>
            match Prisma.create st
                    {| Prisma.UserCreateInput.name := CreateUserDto.name data;
                       Prisma.UserCreateInput.ext := CreateUserDto.ext data;
                       Prisma.UserCreateInput.phone := CreateUserDto.phone data;
                       Prisma.UserCreateInput.email := CreateUserDto.email data;
                       Prisma.UserCreateInput.dateOfBirth :=
                         CreateUserDto.dateOfBirth data;
                       Prisma.UserCreateInput.password :=
                         CreateUserDto.password data;
                       Prisma.UserCreateInput.skills :=
                         CreateUserDto.skills data |}
            with
            | Some (newUser, st') => (Return newUser, st')
            | None =>
                (Throw (BadRequest_object "Failed to create user"
                          [FieldError.Build "server"
                             "Internal server error occurred while creating user"
                             None]), st)
            end
        end
    end.

Definition getAllUsers (st : Prisma.Store)
    (query : option PaginationQuery.t) : outcome Page.t :=
  let query := default (PaginationQuery.Build None None) query in
  let page := or_else (PaginationQuery.page query) (Fin 1) in
  let limit := or_else (PaginationQuery.limit query) (Fin 5) in
  let totalUsers := Fin (Z.of_nat (Prisma.count st)) in
  let totalPages := Math_ceil_div totalUsers limit in
  let currentPage := Math_max (Fin 1) (Math_min page totalPages) in
  let offset := mul (sub currentPage (Fin 1)) limit in
  match Prisma.findMany st offset limit with
  | None => Throw (PrismaClientError "Invalid findMany arguments")
  | Some data =>
      let hasNext := lt currentPage totalPages in
      let hasPrev := gt currentPage (Fin 1) in
      Return {| Page.data := data;
                Page.totalUsers := totalUsers;
                Page.totalPages := totalPages;
                Page.currentPage := currentPage;
                Page.limit := limit;
                Page.hasNext := hasNext;
                Page.hasPrev := hasPrev |}
  end.

Definition getUserById (st : Prisma.Store) (id : string)
  : outcome (option User.t) :=
  Return (Prisma.findUnique_id st id).

Definition not_found (id : string) : exception :=
  BadRequest_text ("User with id " +:+ id +:+ " not found").

(** The value [deleteUser] and [updateUser] resolve to is the row the
    store hands back; their caller tests it for null, so it is an
    optional row here. *)
Definition deleteUser (st : Prisma.Store) (id : string)
  : outcome (option User.t) * Prisma.Store :=
  match Prisma.findUnique_id st id with
  | None => (Throw (not_found id), st)
  | Some user =>
      match Prisma.delete st id with
      | Some (deleted, st') => (Return (Some deleted), st')
      | None => (Throw (PrismaClientError "Record to delete not found"), st)
      end
  end.

(** The validated fields, as the change set handed to the store. *)
Definition change_set (validatedData : UpdateUserDto.t)
  : Prisma.UserUpdateInput.t :=
  {| Prisma.UserUpdateInput.id := None;
     Prisma.UserUpdateInput.name := UpdateUserDto.name validatedData;
     Prisma.UserUpdateInput.ext := UpdateUserDto.ext validatedData;
     Prisma.UserUpdateInput.phone := UpdateUserDto.phone validatedData;
     Prisma.UserUpdateInput.email := UpdateUserDto.email validatedData;
     Prisma.UserUpdateInput.dateOfBirth :=
       UpdateUserDto.dateOfBirth validatedData;
     Prisma.UserUpdateInput.password := UpdateUserDto.password validatedData;
     Prisma.UserUpdateInput.skills := UpdateUserDto.skills validatedData |}.

(** The message of a failed update validation. *)
Definition errorMessages (issues : list Zod.issue) : string :=
  join ", "
    (map (fun error =>
            join "." (map key_to_string (Zod.path error))
            +:+ ": " +:+ Zod.message error)
         issues).

(** [if (validatedData.email)]: the field is present and not empty. *)
Definition email_given (validatedData : UpdateUserDto.t) : option string :=
  match UpdateUserDto.email validatedData with
  | Some e => if bool_decide (e = "") then None else Some e
  | None => None
  end.

Definition updateUser (st : Prisma.Store) (id : string)
    (userData : option value) : outcome (option User.t) * Prisma.Store :=
  if invalid_body userData then
    (Throw (BadRequest_text "Invalid input: Expected an object"), st)
  else
    match safeParse UpdateUserSchema userData with
    | Zod.Failure issues =>
        (Throw (BadRequest_text
                  ("Validation failed: " +:+ errorMessages issues)), st)
    | Zod.Success validatedData =>
        match Prisma.findUnique_id st id with
        | None => (Throw (not_found id), st)
        | Some existingUser =>
            let emailExists :=
              match email_given validatedData with
              | Some e => Prisma.findFirst_email_not_id st e id
              | None => None
              end in
            match emailExists with
            | Some _ => (Throw (BadRequest_text "Email already exists"), st)
            | None =>
                match Prisma.update st id (change_set validatedData) with
                | Some (updated, st') => (Return (Some updated), st')
                | None =>
                    (Throw (PrismaClientError "Update refused"), st)
                end
            end
        end
    end.

End Service.
End UsersService.

(** ** [UsersController] *)

Module UsersController.
Import Js Schema Nest.

(** The uniform response envelope. *)
Module Envelope.
Record t : Type := Build {
  success : bool;
  message : string;
  data : option User.t;
  errors : option (list FieldError.t);
}.
End Envelope.

Module PaginatedResponse.
Record t : Type := Build {
  success : bool;
  message : string;
  data : list User.t;
  totalUsers : number;
  totalPages : number;
  currentPage : number;
  limit : number;
  hasNext : bool;
  hasPrev : bool;
}.
End PaginatedResponse.

(** The query string of a listing request: each parameter is absent or
    a string. *)
Module Query.
Record t : Type := Build {
  page : option string;
  limit : option string;
}.
End Query.

Section Controller.
Context `{!Runtime}.

(** [@Post('/create') @HttpCode(HttpStatus.CREATED)] *)
Definition createUser (st : Prisma.Store) (createUserDto : option value)
  : outcome Envelope.t * Prisma.Store :=
  match UsersService.createUser st createUserDto with
  | (Return user, st') =>
      (Return {| Envelope.success := true;
                 Envelope.message := "User created successfully";
                 Envelope.data := Some user;
                 Envelope.errors := None |}, st')
  | (Throw error, st') =>
      match error with
      | BadRequestException response =>
          (Return {| Envelope.success := false;
                     Envelope.message :=
                       if bool_decide (ResponseBody.message response = "")
                       then exn_message error
                       else ResponseBody.message response;
                     Envelope.data := None;
                     Envelope.errors :=
                       Some (default [] (ResponseBody.errors response)) |},
           st')
      | _ =>
          (Return {| Envelope.success := false;
                     Envelope.message := "Internal server error";
                     Envelope.data := None;
                     Envelope.errors :=
                       Some [FieldError.Build "server"
                               "An unexpected error occurred while creating the user"
                               None] |}, st')
      end
  end.

(** [query.p ? parseInt(query.p) : undefined] *)
Definition parse_param (p : option string) : option number :=
  match p with
  | Some s => if bool_decide (s = "") then None else Some (parseInt s)
  | None => None
  end.

(** [@Get()] *)
Definition getAllUsers (st : Prisma.Store) (query : Query.t)
  : outcome PaginatedResponse.t :=
  let paginationQuery :=
    {| PaginationQuery.page := parse_param (Query.page query);
       PaginationQuery.limit := parse_param (Query.limit query) |} in
  match UsersService.getAllUsers st (Some paginationQuery) with
  | Return result =>
      Return {| PaginatedResponse.success := true;
                PaginatedResponse.message := "Users retrieved successfully";
                PaginatedResponse.data := UsersService.Page.data result;
                PaginatedResponse.totalUsers :=
                  UsersService.Page.totalUsers result;
                PaginatedResponse.totalPages :=
                  UsersService.Page.totalPages result;
                PaginatedResponse.currentPage :=
                  UsersService.Page.currentPage result;
                PaginatedResponse.limit := UsersService.Page.limit result;
                PaginatedResponse.hasNext := UsersService.Page.hasNext result;
                PaginatedResponse.hasPrev := UsersService.Page.hasPrev result |}
  | Throw e => Throw e
  end.

Definition not_found_envelope : Envelope.t :=
  {| Envelope.success := false;
     Envelope.message := "User not found";
     Envelope.data := None;
     Envelope.errors := None |}.

Definition found_envelope (message : string) (user : User.t) : Envelope.t :=
  {| Envelope.success := true;
     Envelope.message := message;
     Envelope.data := Some user;
     Envelope.errors := None |}.

(** [@Get(':id')] *)
Definition getUserById (st : Prisma.Store) (id : string)
  : outcome Envelope.t :=
  match UsersService.getUserById st id with
  | Return None => Return not_found_envelope
  | Return (Some user) =>
      Return (found_envelope "User retrieved successfully" user)
  | Throw e => Throw e
  end.

(** [@Delete(':id')] *)
Definition deleteUser (st : Prisma.Store) (id : string)
  : outcome Envelope.t * Prisma.Store :=
  match UsersService.deleteUser st id with
  | (Return None, st') => (Return not_found_envelope, st')
  | (Return (Some user), st') =>
      (Return (found_envelope "User deleted successfully" user), st')
  | (Throw error, st') => (Throw error, st')
  end.

(** [@Patch(':id')] *)
Definition updateUser (st : Prisma.Store) (id : string)
    (userData : option value) : outcome Envelope.t * Prisma.Store :=
  match UsersService.updateUser st id userData with
  | (Return None, st') => (Return not_found_envelope, st')
  | (Return (Some user), st') =>
      (Return (found_envelope "User updated successfully" user), st')
  | (Throw error, st') => (Throw error, st')
  end.

(** The routes: each handler behind the framework, with the status
    code of its decorators. *)
Definition POST_create (st : Prisma.Store) (body : option value)
  : HttpResponse Envelope.t * Prisma.Store :=
  let '(o, st') := createUser st body in
  (respond HttpStatus.CREATED o, st').

Definition GET_list (st : Prisma.Store) (query : Query.t)
  : HttpResponse PaginatedResponse.t :=
  respond HttpStatus.OK (getAllUsers st query).

Definition GET_one (st : Prisma.Store) (id : string)
  : HttpResponse Envelope.t :=
  respond HttpStatus.OK (getUserById st id).

Definition DELETE_one (st : Prisma.Store) (id : string)
  : HttpResponse Envelope.t * Prisma.Store :=
  let '(o, st') := deleteUser st id in
  (respond HttpStatus.OK o, st').


End Controller.
End UsersController.

(** ** A concrete environment

    An engine whose [Date.parse] reads the ISO date-only format
    [YYYY-MM-DD] (and nothing else) as midnight UTC, with or without the
    unique index on the email column; and sample request bodies. They
    serve to run the program on concrete requests. *)

Module Sample.
Import Js.

Definition digit (c : ascii) : option Z :=
  match digit_value c with
  | Some d => if d <? 10 then Some d else None
  | None => None
  end.

Definition two_digits (a b : ascii) : option Z :=
  match digit a, digit b with
  | Some x, Some y => Some (10 * x + y)
  | _, _ => None
  end.

Definition leap (y : Z) : bool :=
  ((y mod 4 =? 0) && negb (y mod 100 =? 0)) || (y mod 400 =? 0).

Definition days_in_month (y m : Z) : Z :=
  if m =? 2 then (if leap y then 29 else 28)
  else if (m =? 4) || (m =? 6) || (m =? 9) || (m =? 11) then 30
  else 31.

(** Days from 1970-01-01 to the given civil date. *)
Definition days_from_civil (y m d : Z) : Z :=
  let y' := if m <=? 2 then y - 1 else y in
  let era := y' / 400 in
  let yoe := y' - era * 400 in
  let mp := (m + 9) mod 12 in
  let doy := (153 * mp + 2) / 5 + d - 1 in
  let doe := yoe * 365 + yoe / 4 - yoe / 100 + doy in
  era * 146097 + doe - 719468.

Definition iso_date_parse (s : string) : option Z :=
  match chars s with
  | [y1; y2; y3; y4; "-"%char; m1; m2; "-"%char; d1; d2] =>
      match two_digits y1 y2, two_digits y3 y4,
            two_digits m1 m2, two_digits d1 d2 with
      | Some yh, Some yl, Some m, Some d =>
          let y := 100 * yh + yl in
          if (1 <=? m) && (m <=? 12) && (1 <=? d) && (d <=? days_in_month y m)
          then Some (days_from_civil y m d * 86400000)
          else None
      | _, _, _, _ => None
      end
  | _ => None
  end.

Definition runtime (unique_index : bool) : Runtime :=
  {| Date_parse := iso_date_parse; email_unique_index := unique_index |}.

(** A well-formed create body with the given name and email. *)
Definition user_props (name email : string) : list (string * value) :=
  [("name", Str name);
   ("ext", Str "+880");
   ("phone", Str "1712345678");
   ("email", Str email);
   ("dateOfBirth", Str "1999-12-31");
   ("password", Str "secret1");
   ("skills", Arr [Obj [("field", Str "Backend");
                        ("tags", Arr [Str "node"; Str "sql"])]])].

Definition user_body (name email : string) : value :=
  Obj (user_props name email).

(** The store after creating users for the given emails, in order. *)
Fixpoint populate `{!Runtime} (st : Prisma.Store) (emails : list string)
  : Prisma.Store :=
  match emails with
  | [] => st
  | e :: rest =>
      populate (snd (UsersService.createUser st (Some (user_body "Someone" e))))
               rest
  end.

Definition twelve_emails : list string :=
  ["a@x.com"; "b@x.com"; "c@x.com"; "d@x.com"; "e@x.com"; "f@x.com";
   "g@x.com"; "h@x.com"; "i@x.com"; "j@x.com"; "k@x.com"; "l@x.com"].

Definition twelve_users `{!Runtime} : Prisma.Store :=
  populate Prisma.empty twelve_emails.

(** The environment without the unique index, where the service alone
    stands for the uniqueness of emails, and its store of twelve users
    and of one user. *)
Definition plain : Runtime := runtime false.
Definition store12 : Prisma.Store := @twelve_users plain.
Definition store1 : Prisma.Store := @populate plain Prisma.empty ["a@x.com"].

(** An update body with three faults. *)
Definition faulty_update : list (string * value) :=
  [("name", Num 3);
   ("email", Str " a@x.com");
   ("skills", Arr [Obj [("field", Str "Backend"); ("tags", Arr [Str "ab"])]])].
End Sample.

(** ** The vocabulary of the properties *)

Module Spec.
Import Js Schema Nest.

(** An email in the normal form validation gives it. *)
Definition normalized (email : string) : Prop :=
  toLowerCase (trim email) = email.

Definition emails (st : Prisma.Store) : list string :=
  User.email <$> Prisma.rows st.

Definition ids (st : Prisma.Store) : list string :=
  User.id <$> Prisma.rows st.

(** The identifiers were all issued by the clock, before now. *)
Definition issued (st : Prisma.Store) : Prop :=
  Forall (fun u => exists k, (k < Prisma.clock st)%nat /\ User.id u = pretty k)
         (Prisma.rows st).

Record consistent (st : Prisma.Store) : Prop := {
  ids_unique : NoDup (ids st);
  ids_issued : issued st;
  emails_unique : NoDup (emails st);
  emails_normalized : Forall (fun u => normalized (User.email u))
                             (Prisma.rows st);
}.

(** The client error of a create request whose email is taken. *)
Definition duplicate_email_error (email : string) : exception :=
  BadRequest_object "User already exists"
    [FieldError.Build "email" "User with this email already exists"
       (Some (Str email))].

(** [c] is the ceiling of the quotient [n / d] of two integers, [d] not
    zero: [c - 1 < n / d <= c]. *)
Definition is_ceiling (n d c : Z) : Prop :=
  if 0 <? d then (c - 1) * d < n <= c * d
  else c * d <= n < (c - 1) * d.

(** The requested page clamped into [1, totalPages], and page 1 when
    there is no page at all. *)
Definition clamp_page (p totalPages : number) : number :=
  if bool_decide (totalPages = Fin 0) then Fin 1
  else if lt p (Fin 1) then Fin 1
  else if lt totalPages p then totalPages
  else p.

(** What the specification says of a listing with requested page [p]
    and limit [L], after the defaults. *)
Definition listing_as_specified (st : Prisma.Store)
    (query : PaginationQuery.t) : Prop :=
  let p := or_else (PaginationQuery.page query) (Fin 1) in
  let L := or_else (PaginationQuery.limit query) (Fin 5) in
  exists r,
    UsersService.getAllUsers st (Some query) = Return r
    /\ UsersService.Page.totalUsers r = Fin (Z.of_nat (Prisma.count st))
    /\ UsersService.Page.limit r = L
    /\ (exists l tp, L = Fin l /\ UsersService.Page.totalPages r = Fin tp
                     /\ is_ceiling (Z.of_nat (Prisma.count st)) l tp)
    /\ UsersService.Page.currentPage r
       = clamp_page p (UsersService.Page.totalPages r)
    /\ Prisma.findMany st
         (mul (sub (UsersService.Page.currentPage r) (Fin 1)) L) L
       = Some (UsersService.Page.data r)
    /\ lt L (Fin (Z.of_nat (length (UsersService.Page.data r)))) = false
    /\ UsersService.Page.hasNext r
       = lt (UsersService.Page.currentPage r) (UsersService.Page.totalPages r)
    /\ UsersService.Page.hasPrev r
       = gt (UsersService.Page.currentPage r) (Fin 1).

(** A query parameter that is absent, or parses to [NaN] or to zero. *)
Definition defaulted (param : option string) : Prop :=
  match param with
  | None => True
  | Some s => parseInt s = NaN \/ parseInt s = Fin 0
  end.

(** The divisor of the page count: the [limit] of the service for the
    query string of a request. *)
Definition effective_limit (query : UsersController.Query.t) : number :=
  or_else (UsersController.parse_param (UsersController.Query.limit query))
          (Fin 5).

Section Runs.
Context `{!Runtime}.

(** The stores that a sequence of create, update and delete requests,
    executed one after the other, leads to from the empty store. *)
Inductive reachable : Prisma.Store -> Prop :=
| reach_empty : reachable Prisma.empty
| reach_create st userData :
    reachable st ->
    reachable (snd (UsersService.createUser st userData))
| reach_update st id userData :
    reachable st ->
    reachable (snd (UsersService.updateUser st id userData))
| reach_delete st id :
    reachable st ->
    reachable (snd (UsersService.deleteUser st id)).
End Runs.

End Spec.

(** ** More vocabulary: validation issues, pages *)

Module Coverage.
Import Js Schema Nest.

(** The issues a parse reports; none when it succeeds. *)
Definition issues_of {A} (r : Zod.result A) : list Zod.issue :=
  match r with
  | Zod.Success _ => []
  | Zod.Failure es => es
  end.

(** The keys of the create schema. *)
Definition required_keys : list string :=
  ["name"; "ext"; "phone"; "email"; "dateOfBirth"; "password"; "skills"].

(** The records of the listing for page [p] with limit [l]. *)
Definition page_data (st : Prisma.Store) (p l : Z) : list User.t :=
  match UsersService.getAllUsers st
          (Some (PaginationQuery.Build (Some (Fin p)) (Some (Fin l)))) with
  | Return r => UsersService.Page.data r
  | Throw _ => []
  end.

(** The time stamps of the rows were all read off the clock. *)
Definition stamped (st : Prisma.Store) : Prop :=
  Forall (fun u => (User.createdAt u < Prisma.clock st)%nat) (Prisma.rows st).

(** A validated create request, as the update schema validates the same
    body. *)
Definition as_update (d : CreateUserDto.t) : UpdateUserDto.t :=
  {| UpdateUserDto.name := Some (CreateUserDto.name d);
     UpdateUserDto.ext := Some (CreateUserDto.ext d);
     UpdateUserDto.phone := Some (CreateUserDto.phone d);
     UpdateUserDto.email := Some (CreateUserDto.email d);
     UpdateUserDto.dateOfBirth := Some (CreateUserDto.dateOfBirth d);
     UpdateUserDto.password := Some (CreateUserDto.password d);
     UpdateUserDto.skills := Some (CreateUserDto.skills d) |}.

(** What the schema asks of a user, as far as it survives validation:
    a password of 6 to 100 characters, a date of birth that is a date, an
    email with an [@], at least one skill, and at least one tag in every
    skill. *)
Definition schema_conformant (u : User.t) : Prop :=
  (6 <= String.length (User.password u) <= 100)%nat
  /\ is_Some (User.dateOfBirth u)
  /\ In "@"%char (chars (User.email u))
  /\ User.skills u <> []
  /\ Forall (fun sk => Skill.tags sk <> []) (User.skills u).

End Coverage.

(** * Properties *)

(** ** Strings *)

Section StringFacts.
Import Js.

Lemma of_chars_chars s : of_chars (chars s) = s.
Proof. apply string_of_list_ascii_of_string. Qed.

Lemma chars_of_chars l : chars (of_chars l) = l.
Proof. apply list_ascii_of_string_of_list_ascii. Qed.

Lemma lower_char_idem c : lower_char (lower_char c) = lower_char c.
Proof. destruct c as [[] [] [] [] [] [] [] []]; reflexivity. Qed.

Lemma is_space_lower c : is_space (lower_char c) = is_space c.
Proof. destruct c as [[] [] [] [] [] [] [] []]; reflexivity. Qed.

Lemma toLowerCase_idem s : toLowerCase (toLowerCase s) = toLowerCase s.
Proof.
  unfold toLowerCase. rewrite chars_of_chars, map_map.
  f_equal. apply map_ext. intros c. apply lower_char_idem.
Qed.

Lemma trim_start_lower l :
  trim_start (map lower_char l) = map lower_char (trim_start l).
Proof.
  induction l as [|c l IH]; simpl; [reflexivity|].
  rewrite is_space_lower. destruct (is_space c); [exact IH | reflexivity].
Qed.

Lemma trim_end_lower l :
  trim_end (map lower_char l) = map lower_char (trim_end l).
Proof.
  unfold trim_end.
  now rewrite <- map_rev, trim_start_lower, map_rev.
Qed.

(** Trimming and lower-casing commute. *)
Lemma trim_toLowerCase s : trim (toLowerCase s) = toLowerCase (trim s).
Proof.
  unfold trim, toLowerCase. rewrite !chars_of_chars.
  now rewrite trim_start_lower, trim_end_lower.
Qed.

Lemma trim_start_idem l : trim_start (trim_start l) = trim_start l.
Proof.
  induction l as [|c l IH]; simpl; [reflexivity|].
  destruct (is_space c) eqn:E; [exact IH|]. simpl. now rewrite E.
Qed.

Lemma trim_start_app_keep l c l' :
  is_space c = false ->
  trim_start (l ++ c :: l') = trim_start l ++ c :: l'.
Proof.
  intros Hc. induction l as [|d l IH]; simpl.
  - now rewrite Hc.
  - destruct (is_space d); [exact IH | reflexivity].
Qed.

(** Trimming the end leaves a trimmed start trimmed. *)
Lemma trim_start_trim_end l :
  trim_start (trim_end (trim_start l)) = trim_end (trim_start l).
Proof.
  destruct (trim_start l) as [|c l'] eqn:E; [reflexivity|].
  assert (Hc : is_space c = false).
  { clear -E. induction l as [|d l IH]; simpl in E; [discriminate|].
    destruct (is_space d) eqn:Hd; [auto|]. now inversion E; subst. }
  unfold trim_end. simpl rev.
  rewrite trim_start_app_keep by exact Hc.
  rewrite rev_app_distr. simpl. now rewrite Hc.
Qed.

Lemma trim_end_idem l : trim_end (trim_end l) = trim_end l.
Proof.
  unfold trim_end. now rewrite rev_involutive, trim_start_idem.
Qed.

Lemma trim_idem s : trim (trim s) = trim s.
Proof.
  unfold trim. rewrite chars_of_chars.
  now rewrite trim_start_trim_end, trim_end_idem.
Qed.

(** The normal form of an email is stable under normalisation. *)
Lemma normalize_idem s :
  toLowerCase (trim (toLowerCase (trim s))) = toLowerCase (trim s).
Proof.
  now rewrite trim_toLowerCase, toLowerCase_idem, trim_idem.
Qed.

Lemma trim_start_keeps c l :
  In c l -> is_space c = false -> In c (trim_start l).
Proof.
  intros Hin Hc. induction l as [|d l IH]; simpl; [contradiction|].
  destruct (is_space d) eqn:Hd.
  - destruct Hin as [->|Hin]; [congruence | auto].
  - exact Hin.
Qed.

Lemma trim_end_keeps c l :
  In c l -> is_space c = false -> In c (trim_end l).
Proof.
  intros Hin Hc. unfold trim_end. apply in_rev.
  rewrite rev_involutive.
  apply trim_start_keeps; [now apply in_rev in Hin |exact Hc].
Qed.

Lemma of_chars_nonempty l : l <> [] -> of_chars l <> "".
Proof. destruct l; [congruence | discriminate]. Qed.

(** A string with a character that is not white space does not
    normalise to the empty string. *)
Lemma normalize_nonempty s c :
  In c (chars s) -> is_space c = false -> toLowerCase (trim s) <> "".
Proof.
  intros Hin Hc. unfold toLowerCase, trim. rewrite chars_of_chars.
  apply of_chars_nonempty.
  pose proof (trim_end_keeps c _ (trim_start_keeps c _ Hin Hc) Hc) as H.
  destruct (trim_end (trim_start (chars s))); [contradiction | discriminate].
Qed.

End StringFacts.

(** ** Validation *)

Section ValidationFacts.
Import Js Zod Schema.
Context `{!Runtime}.

Lemma ap_Success {A B} (rf : result (A -> B)) (ra : result A) (b : B) :
  ap rf ra = Success b ->
  exists f a, rf = Success f /\ ra = Success a /\ b = f a.
Proof.
  destruct rf as [f|], ra as [a|]; simpl; intros E; try discriminate.
  inversion E. eauto.
Qed.

Lemma at_key_Success {A} k (r : result A) a :
  at_key k r = Success a -> r = Success a.
Proof. destruct r; simpl; [auto | discriminate]. Qed.

Lemma map_result_Success {A B} (f : A -> B) (r : result A) b :
  map_result f r = Success b -> exists a, r = Success a /\ b = f a.
Proof. destruct r; simpl; intros E; inversion E; eauto. Qed.

Lemma split_first_In sep l a b :
  split_first sep l = Some (a, b) -> In sep l.
Proof.
  revert a. induction l as [|c l IH]; simpl; intros a E; [discriminate|].
  case_bool_decide; [left; congruence|].
  destruct (split_first sep l) as [[a' b']|]; [|discriminate].
  inversion E; subst. right. eapply IH. reflexivity.
Qed.

(** A string that matches the e-mail pattern contains an [@]. *)
Lemma email_pattern_at s : email_pattern s = true -> In "@"%char (chars s).
Proof.
  unfold email_pattern.
  destruct (split_first "@" (chars s)) as [[loc dom]|] eqn:E; [|discriminate].
  intros _. eapply split_first_In, E.
Qed.

(** What a successful parse of the email field says about the input. *)
Lemma email_schema_Success v e :
  email_schema v = Success e ->
  exists raw, v = Some (Str raw) /\ email_pattern raw = true
              /\ e = toLowerCase (trim raw).
Proof.
  unfold email_schema, z_email, string_schema.
  destruct v as [[| | |raw| |]|]; try discriminate.
  cbn [run_checks]. destruct (email_pattern raw) eqn:Hp; [|discriminate].
  cbn. intros E. inversion E. eauto.
Qed.

Lemma object_body_valid props :
  UsersService.invalid_body (Some (Obj props)) = false.
Proof. reflexivity. Qed.

(** The email of a validated create request is the normal form of the
    email of the body, which matches the pattern. *)
Lemma CreateUserSchema_email userData data :
  safeParse CreateUserSchema userData = Success data ->
  exists props raw,
    userData = Some (Obj props)
    /\ get_prop props "email" = Some (Str raw)
    /\ email_pattern raw = true
    /\ CreateUserDto.email data = toLowerCase (trim raw).
Proof.
  unfold safeParse, CreateUserSchema, z_object.
  destruct userData as [[| | | | |props]|]; try discriminate.
  intros E.
  repeat (apply ap_Success in E as (? & ? & E & ? & ->)).
  inversion E; subst; clear E. cbn [CreateUserDto.email].
  match goal with
  | Hm : field props "email" _ = _ |- _ =>
      apply at_key_Success, email_schema_Success in Hm
        as (raw & Hget & Hp & ->)
  end.
  eauto 10.
Qed.

Lemma optional_Success {A} (schema : option value -> result A) v o :
  optional schema v = Success o ->
  match o with
  | Some a => schema v = Success a
  | None => v = None
  end.
Proof.
  unfold optional. destruct v as [x|].
  - intros (a & Ha & ->)%map_result_Success. exact Ha.
  - intros E. now inversion E.
Qed.

(** The same for an update request that carries an email. *)
Lemma UpdateUserSchema_email userData v e :
  safeParse UpdateUserSchema userData = Success v ->
  UpdateUserDto.email v = Some e ->
  exists props raw,
    userData = Some (Obj props)
    /\ get_prop props "email" = Some (Str raw)
    /\ email_pattern raw = true
    /\ e = toLowerCase (trim raw).
Proof.
  unfold safeParse, UpdateUserSchema, z_object.
  destruct userData as [[| | | | |props]|]; try discriminate.
  intros E.
  repeat (apply ap_Success in E as (? & ? & E & ? & ->)).
  inversion E; subst; clear E. cbn [UpdateUserDto.email]. intros ->.
  match goal with
  | Hm : field props "email" _ = _ |- _ =>
      apply at_key_Success, optional_Success, email_schema_Success in Hm
        as (raw & Hget & Hp & ->)
  end.
  eauto 10.
Qed.

(** An update body that carries an email validates to one. *)
Lemma UpdateUserSchema_email_present props raw v :
  safeParse UpdateUserSchema (Some (Obj props)) = Success v ->
  get_prop props "email" = Some (Str raw) ->
  UpdateUserDto.email v = Some (toLowerCase (trim raw)).
Proof.
  unfold safeParse, UpdateUserSchema, z_object. intros E Hget.
  repeat (apply ap_Success in E as (? & ? & E & ? & ->)).
  inversion E; subst; clear E. cbn [UpdateUserDto.email].
  match goal with
  | Hm : field props "email" _ = _ |- _ =>
      apply at_key_Success in Hm; rewrite Hget in Hm;
      apply map_result_Success in Hm as (e & He & ->);
      apply email_schema_Success in He as (raw' & [= <-] & _ & ->)
  end.
  reflexivity.
Qed.

(** The id property of a body is not read by the update schema. *)
Lemma UpdateUserSchema_ignores_id props x :
  safeParse UpdateUserSchema (Some (Obj (("id", x) :: props)))
  = safeParse UpdateUserSchema (Some (Obj props)).
Proof. reflexivity. Qed.

Lemma UpdateUserSchema_email_facts userData v e :
  safeParse UpdateUserSchema userData = Success v ->
  UpdateUserDto.email v = Some e ->
  e <> "" /\ toLowerCase (trim e) = e.
Proof.
  intros Hv He.
  destruct (UpdateUserSchema_email _ _ _ Hv He) as (props & raw & _ & _ & Hp & ->).
  split; [|apply normalize_idem].
  eapply normalize_nonempty; [apply email_pattern_at, Hp | reflexivity].
Qed.

Lemma email_given_Some userData v e :
  safeParse UpdateUserSchema userData = Success v ->
  UpdateUserDto.email v = Some e ->
  UsersService.email_given v = Some e.
Proof.
  intros Hv He. destruct (UpdateUserSchema_email_facts _ _ _ Hv He) as [Hne _].
  unfold UsersService.email_given. rewrite He.
  case_bool_decide; [contradiction | reflexivity].
Qed.

Lemma email_given_inv v e :
  UsersService.email_given v = Some e -> UpdateUserDto.email v = Some e.
Proof.
  unfold UsersService.email_given.
  destruct (UpdateUserDto.email v) as [e'|]; [|discriminate].
  case_bool_decide; [discriminate | congruence].
Qed.

End ValidationFacts.

(** ** The store *)

Section StoreFacts.
Import Js Schema Prisma.

Lemma find_elem_of {A} (f : A -> bool) l x :
  find f l = Some x -> x ∈ l /\ f x = true.
Proof. intros [Hin Hf]%find_some. now rewrite list_elem_of_In. Qed.

Lemma find_None_elem_of {A} (f : A -> bool) l :
  find f l = None <-> forall x, x ∈ l -> f x = false.
Proof.
  split.
  - intros Hnone x Hin%list_elem_of_In. exact (find_none _ _ Hnone x Hin).
  - intros Hall. destruct (find f l) as [x|] eqn:E; [|reflexivity].
    apply find_elem_of in E as [Hin Hf]. rewrite (Hall x Hin) in Hf.
    discriminate.
Qed.

Lemma find_has_id l id u :
  find (has_id id) l = Some u -> u ∈ l /\ User.id u = id.
Proof.
  intros [Hin Hid]%find_elem_of. split; [exact Hin|].
  unfold has_id in Hid. now apply bool_decide_eq_true in Hid.
Qed.

Lemma find_has_id_None l id :
  find (has_id id) l = None <-> id ∉ User.id <$> l.
Proof.
  rewrite find_None_elem_of, list_elem_of_fmap. unfold has_id. split.
  - intros Hall (u & -> & Hin). specialize (Hall u Hin).
    now apply bool_decide_eq_false in Hall.
  - intros Hnot u Hin. apply bool_decide_eq_false. intros <-.
    apply Hnot. eauto.
Qed.

Lemma find_has_email_None l e :
  find (has_email e) l = None <-> e ∉ User.email <$> l.
Proof.
  rewrite find_None_elem_of, list_elem_of_fmap. unfold has_email. split.
  - intros Hall (u & -> & Hin). specialize (Hall u Hin).
    now apply bool_decide_eq_false in Hall.
  - intros Hnot u Hin. apply bool_decide_eq_false. intros <-.
    apply Hnot. eauto.
Qed.

(** The lookup by identifier splits the table at the row it finds. *)
Lemma find_has_id_split l id u :
  find (has_id id) l = Some u ->
  exists l1 l2,
    l = l1 ++ u :: l2
    /\ User.id u = id
    /\ (forall u', replace_row id u' l = l1 ++ u' :: l2)
    /\ remove_row id l = l1 ++ l2.
Proof.
  induction l as [|x l IH]; simpl; [discriminate|].
  destruct (has_id id x) eqn:Hx.
  - intros [= ->]. exists [], l. unfold has_id in Hx.
    apply bool_decide_eq_true in Hx. auto.
  - intros (l1 & l2 & -> & Hid & Hrep & Hrem)%IH.
    exists (x :: l1), l2. simpl. repeat split; [exact Hid| |now rewrite Hrem].
    intros u'. now rewrite Hrep.
Qed.

(** In a table without repeated values of [f], a row is determined by
    its value of [f]. *)
Lemma NoDup_fmap_eq {A B} (f : A -> B) (l : list A) x y :
  NoDup (f <$> l) -> x ∈ l -> y ∈ l -> f x = f y -> x = y.
Proof.
  induction l as [|a l IH]; [intros _ Hx; inversion Hx|].
  rewrite fmap_cons, NoDup_cons, !elem_of_cons.
  intros [Hna Hnd] [->|Hx] [->|Hy] Hf; auto.
  - exfalso. apply Hna. rewrite Hf. now apply list_elem_of_fmap_2.
  - exfalso. apply Hna. rewrite <- Hf. now apply list_elem_of_fmap_2.
Qed.

End StoreFacts.

(** ** The steps of the service *)

Section ServiceFacts.
Import Js Schema Nest Prisma.
Context `{!Runtime}.

(** A create request throws and leaves the store as it was, or appends
    one row whose email was validated and found absent. *)
Lemma createUser_step st userData :
  (exists e, UsersService.createUser st userData = (Throw e, st))
  \/ exists data u,
       UsersService.invalid_body userData = false
       /\ safeParse CreateUserSchema userData = Zod.Success data
       /\ findUnique_email st (CreateUserDto.email data) = None
       /\ UsersService.createUser st userData
          = (Return u, {| rows := rows st ++ [u]; clock := S (clock st) |})
       /\ User.id u = pretty (clock st)
       /\ User.email u = CreateUserDto.email data.
Proof.
  unfold UsersService.createUser.
  destruct (UsersService.invalid_body userData); [left; eauto|].
  destruct (safeParse CreateUserSchema userData) as [data|]; [|left; eauto].
  destruct (findUnique_email st _) eqn:Hfind; [left; eauto|].
  unfold create. cbn [UserCreateInput.email].
  destruct (email_conflict st _ None); [left; eauto|].
  right. eexists _, _. repeat split; eauto.
Qed.

(** An update request throws and leaves the store as it was, or
    replaces the row of the identifier by the row with the validated
    fields written over, after the lookup for the new email in other
    rows came back empty. *)
Lemma updateUser_step st id userData :
  (exists e, UsersService.updateUser st id userData = (Throw e, st))
  \/ exists v u,
       safeParse UpdateUserSchema userData = Zod.Success v
       /\ findUnique_id st id = Some u
       /\ (forall e, UpdateUserDto.email v = Some e ->
                     findFirst_email_not_id st e id = None)
       /\ let u' := apply_update (UsersService.change_set v) (clock st) u in
          UsersService.updateUser st id userData
          = (Return (Some u'),
             {| rows := replace_row id u' (rows st); clock := S (clock st) |}).
Proof.
  unfold UsersService.updateUser.
  destruct (UsersService.invalid_body userData); [left; eauto|].
  destruct (safeParse UpdateUserSchema userData) as [v|] eqn:Hv;
    [|left; eauto].
  destruct (findUnique_id st id) as [u|] eqn:Hu; [|left; eauto].
  destruct (match UsersService.email_given v with
            | Some e => findFirst_email_not_id st e id
            | None => None
            end) eqn:Hem; [left; eauto|].
  unfold update. rewrite Hu.
  match goal with |- context [if ?c then None else _] => destruct c end;
    [left; eauto|].
  right. exists v, u. repeat split; auto.
  intros e He. now rewrite (email_given_Some _ _ _ Hv He) in Hem.
Qed.

(** A delete request throws and leaves the store as it was, or removes
    the row of the identifier. *)
Lemma deleteUser_step st id :
  (exists e, UsersService.deleteUser st id = (Throw e, st))
  \/ exists u,
       findUnique_id st id = Some u
       /\ UsersService.deleteUser st id
          = (Return (Some u),
             {| rows := remove_row id (rows st); clock := S (clock st) |}).
Proof.
  unfold UsersService.deleteUser, delete.
  destruct (findUnique_id st id) as [u|] eqn:Hu; [|left; eauto].
  right. eauto.
Qed.

End ServiceFacts.

(** ** The invariant of the store *)

Section Invariant.
Import Js Schema Nest Prisma Spec.
Context `{!Runtime}.

Lemma consistent_empty : consistent Prisma.empty.
Proof.
  split; unfold ids, emails, issued; cbn; constructor.
Qed.

Lemma issued_later (l : list User.t) n m :
  (n <= m)%nat ->
  Forall (fun u => exists k, (k < n)%nat /\ User.id u = pretty k) l ->
  Forall (fun u => exists k, (k < m)%nat /\ User.id u = pretty k) l.
Proof.
  intros Hle HF. eapply Forall_impl; [exact HF|].
  intros u (k & Hk & Hid). exists k. split; [lia | exact Hid].
Qed.

Lemma consistent_create st u :
  consistent st ->
  User.id u = pretty (clock st) ->
  findUnique_email st (User.email u) = None ->
  normalized (User.email u) ->
  consistent {| rows := rows st ++ [u]; clock := S (clock st) |}.
Proof.
  intros [Hids Hiss Hem Hnorm] Hid Hfresh Hn.
  split; unfold ids, emails, issued in *; cbn [rows clock].
  - rewrite fmap_app. apply NoDup_app. repeat split; [exact Hids| |].
    + intros i Hi. cbn. rewrite list_elem_of_singleton. intros ->.
      apply list_elem_of_fmap in Hi as (x & Hx & Hin).
      rewrite Forall_forall in Hiss. destruct (Hiss x Hin) as (k & Hk & Hxk).
      rewrite Hid, Hxk in Hx. apply (inj pretty) in Hx. lia.
    + cbn. apply NoDup_singleton.
  - apply Forall_app. split.
    + eapply issued_later; [|exact Hiss]. lia.
    + apply Forall_singleton. exists (clock st). split; [lia | exact Hid].
  - rewrite fmap_app. apply NoDup_app. repeat split; [exact Hem| |].
    + intros e He. cbn. rewrite list_elem_of_singleton. intros ->.
      apply find_has_email_None in Hfresh. contradiction.
    + cbn. apply NoDup_singleton.
  - apply Forall_app. split; [exact Hnorm|]. now apply Forall_singleton.
Qed.

Lemma consistent_delete st id u :
  consistent st ->
  findUnique_id st id = Some u ->
  consistent {| rows := remove_row id (rows st); clock := S (clock st) |}.
Proof.
  intros [Hids Hiss Hem Hnorm] Hu.
  apply find_has_id_split in Hu as (l1 & l2 & Hrows & _ & _ & Hrem).
  unfold ids, emails, issued in *. rewrite Hrows in *.
  split; unfold ids, emails, issued; cbn [rows clock]; rewrite Hrem.
  - rewrite fmap_app, fmap_cons in Hids. rewrite fmap_app.
    apply NoDup_app in Hids as (H1 & H12 & H2).
    apply NoDup_cons in H2 as [_ H2].
    apply NoDup_app. repeat split; [exact H1| |exact H2].
    intros x Hx Hx2. apply (H12 x Hx). now right.
  - apply Forall_app in Hiss as [F1 F2]. apply Forall_cons in F2 as [_ F2].
    apply Forall_app. split; (eapply issued_later; [|eassumption]); lia.
  - rewrite fmap_app, fmap_cons in Hem. rewrite fmap_app.
    apply NoDup_app in Hem as (H1 & H12 & H2).
    apply NoDup_cons in H2 as [_ H2].
    apply NoDup_app. repeat split; [exact H1| |exact H2].
    intros x Hx Hx2. apply (H12 x Hx). now right.
  - apply Forall_app in Hnorm as [F1 F2]. apply Forall_cons in F2 as [_ F2].
    apply Forall_app. now split.
Qed.

(** Overwriting a row keeps the store consistent when the identifier
    stays and the email stays or goes to one that no other row holds. *)
Lemma consistent_update st id u u' :
  consistent st ->
  findUnique_id st id = Some u ->
  User.id u' = id ->
  (User.email u' = User.email u
   \/ (findFirst_email_not_id st (User.email u') id = None
       /\ normalized (User.email u'))) ->
  consistent {| rows := replace_row id u' (rows st); clock := S (clock st) |}.
Proof.
  intros [Hids Hiss Hem Hnorm] Hu Hid' Hemail.
  unfold findFirst_email_not_id in Hemail.
  apply find_has_id_split in Hu as (l1 & l2 & Hrows & Hid & Hrep & _).
  unfold ids, emails, issued in *. rewrite Hrows in *.
  assert (Hidd : User.id <$> (l1 ++ u' :: l2) = User.id <$> (l1 ++ u :: l2)).
  { rewrite !fmap_app, !fmap_cons. congruence. }
  split; unfold ids, emails, issued; cbn [rows clock]; rewrite Hrep.
  - now rewrite Hidd.
  - apply Forall_app in Hiss as [F1 F2]. apply Forall_cons in F2 as [Fu F2].
    apply Forall_app. split; [eapply issued_later; [|exact F1]; lia|].
    apply Forall_cons. split; [|eapply issued_later; [|exact F2]; lia].
    destruct Fu as (k & Hk & Hku). exists k. split; [lia | congruence].
  - destruct Hemail as [Hsame | [Hfree _]].
    { replace (User.email <$> l1 ++ u' :: l2)
        with (User.email <$> l1 ++ u :: l2); [exact Hem|].
      rewrite !fmap_app, !fmap_cons. congruence. }
    rewrite find_None_elem_of in Hfree.
    assert (Hother : forall x, x ∈ l1 ++ l2 -> User.email x <> User.email u').
    { intros x Hx Hex.
      assert (Hxin : x ∈ l1 ++ u :: l2).
      { apply elem_of_app in Hx as [Hx|Hx]; apply elem_of_app;
          [now left | right; now right]. }
      specialize (Hfree x Hxin). unfold has_email, has_id in Hfree.
      rewrite bool_decide_eq_true_2 in Hfree by exact Hex. cbn in Hfree.
      apply negb_false_iff, bool_decide_eq_true in Hfree.
      rewrite fmap_app, fmap_cons in Hids.
      apply NoDup_app in Hids as (H1 & H12 & H2).
      apply NoDup_cons in H2 as [Hu2 H2].
      apply elem_of_app in Hx as [Hx|Hx].
      - apply (H12 (User.id x)); [now apply list_elem_of_fmap_2|].
        apply elem_of_cons. left. congruence.
      - apply Hu2. replace (User.id u) with (User.id x) by congruence.
        now apply list_elem_of_fmap_2. }
    rewrite fmap_app, fmap_cons in Hem. rewrite fmap_app, fmap_cons.
    apply NoDup_app in Hem as (H1 & H12 & H2).
    apply NoDup_cons in H2 as [_ H2].
    apply NoDup_app. repeat split; [exact H1| |].
    + intros e He. rewrite elem_of_cons. intros [->|He2].
      * apply list_elem_of_fmap in He as (x & Hx & Hin).
        apply (Hother x); [apply elem_of_app; now left | congruence].
      * apply (H12 e He). now right.
    + apply NoDup_cons. split; [|exact H2].
      intros (x & Hx & Hin)%list_elem_of_fmap.
      apply (Hother x); [apply elem_of_app; now right | congruence].
  - apply Forall_app in Hnorm as [F1 F2]. apply Forall_cons in F2 as [Fu F2].
    apply Forall_app. split; [exact F1|]. apply Forall_cons. split; [|exact F2].
    destruct Hemail as [-> | [_ Hn]]; assumption.
Qed.

(** Every step of the service keeps the store consistent. *)
Lemma createUser_consistent st userData :
  consistent st -> consistent (snd (UsersService.createUser st userData)).
Proof.
  intros Hc.
  destruct (createUser_step st userData)
    as [[e ->] | (data & u & _ & Hv & Hfresh & -> & Hid & Hem)]; [exact Hc|].
  cbn [snd]. apply consistent_create; auto; rewrite Hem; [exact Hfresh|].
  destruct (CreateUserSchema_email _ _ Hv) as (props & raw & _ & _ & _ & ->).
  apply normalize_idem.
Qed.

Lemma updateUser_consistent st id userData :
  consistent st -> consistent (snd (UsersService.updateUser st id userData)).
Proof.
  intros Hc.
  destruct (updateUser_step st id userData)
    as [[e ->] | (v & u & Hv & Hu & Hfree & Hstep)]; [exact Hc|].
  cbn zeta in Hstep. rewrite Hstep. cbn [snd].
  pose proof (find_has_id _ _ _ Hu) as [_ Hid].
  eapply consistent_update; eauto.
  cbn [apply_update User.email UsersService.change_set UserUpdateInput.email].
  destruct (UpdateUserDto.email v) as [e|] eqn:He; cbn; [right | now left].
  split; [now apply Hfree|].
  now destruct (UpdateUserSchema_email_facts _ _ _ Hv He).
Qed.

Lemma deleteUser_consistent st id :
  consistent st -> consistent (snd (UsersService.deleteUser st id)).
Proof.
  intros Hc.
  destruct (deleteUser_step st id) as [[e ->] | (u & Hu & ->)]; [exact Hc|].
  cbn [snd]. eapply consistent_delete; eauto.
Qed.

Lemma reachable_consistent st : reachable st -> consistent st.
Proof.
  induction 1;
    auto using consistent_empty, createUser_consistent,
               updateUser_consistent, deleteUser_consistent.
Qed.

End Invariant.

(** ** Email uniqueness *)

Section EmailUniqueness.
Import Js Schema Nest Prisma Spec.
Context `{!Runtime}.

Lemma find_has_email_Some l e :
  e ∈ User.email <$> l -> exists u, find (has_email e) l = Some u.
Proof.
  intros Hin. destruct (find (has_email e) l) as [u|] eqn:E; [eauto|].
  apply find_has_email_None in E. contradiction.
Qed.

(** A row of another identifier with the email stops the lookup of
    [updateUser]. *)
Lemma findFirst_other st e id other :
  other ∈ rows st -> User.email other = e -> User.id other <> id ->
  exists u, findFirst_email_not_id st e id = Some u.
Proof.
  intros Hin He Hid. unfold findFirst_email_not_id.
  destruct (find _ (rows st)) as [u|] eqn:E; [eauto|].
  rewrite find_None_elem_of in E. specialize (E other Hin).
  unfold has_email, has_id in E.
  rewrite bool_decide_eq_true_2, bool_decide_eq_false_2 in E by assumption.
  discriminate.
Qed.

(** C1. From the empty store, whatever sequence of create, update and
    delete requests runs one after the other, no two rows of the store
    have the same email, and every stored email is in the normal
    (trimmed, lower-cased) form. Create turns down a valid candidate
    whose email is in the store, and update turns down a new email that
    a row of another identifier holds; in both cases the store is left
    as it was. *)
Theorem C1_email_uniqueness :
  (forall st, reachable st ->
     NoDup (emails st)
     /\ Forall (fun u => normalized (User.email u)) (rows st))
  /\ (forall st props data,
        safeParse CreateUserSchema (Some (Obj props)) = Zod.Success data ->
        CreateUserDto.email data ∈ emails st ->
        UsersService.createUser st (Some (Obj props))
        = (Throw (BadRequest_object "User already exists"
                    [FieldError.Build "email"
                       "User with this email already exists"
                       (Some (Str (CreateUserDto.email data)))]), st))
  /\ (forall st id props v e other,
        safeParse UpdateUserSchema (Some (Obj props)) = Zod.Success v ->
        UpdateUserDto.email v = Some e ->
        id ∈ ids st ->
        other ∈ rows st -> User.email other = e -> User.id other <> id ->
        UsersService.updateUser st id (Some (Obj props))
        = (Throw (BadRequest_text "Email already exists"), st)).
Proof.
  split; [|split].
  - intros st Hr. apply reachable_consistent in Hr as [_ _ Hem Hnorm]. auto.
  - intros st props data Hv Hin.
    unfold UsersService.createUser. rewrite object_body_valid, Hv.
    apply find_has_email_Some in Hin as [u Hu].
    unfold findUnique_email. now rewrite Hu.
  - intros st id props v e other Hv He Hid Hin Heo Hne.
    unfold UsersService.updateUser. rewrite object_body_valid, Hv.
    destruct (findUnique_id st id) as [u|] eqn:Hu.
    + rewrite (email_given_Some _ _ _ Hv He).
      destruct (findFirst_other st e id other Hin Heo Hne) as [x ->].
      reflexivity.
    + apply find_has_id_None in Hu. contradiction.
Qed.

End EmailUniqueness.

(** ** Duplicate emails on create *)

Section CreateDuplicates.
Import Js Schema Nest Prisma Spec.
Context `{!Runtime}.

(** C3. When a create request succeeded and a second, well-formed create
    request has an email that differs from the first one's only in the
    case of its letters, the second request fails with the
    duplicate-email client error: both emails are validated to the same
    trimmed, lower-cased form, under which the lookup finds the first
    row. The handler answers with the failure envelope of that error,
    and the store is left as the first request made it. *)
Theorem C3_case_insensitive_duplicate
    st props1 props2 e1 e2 u1 st1 d2 :
  UsersService.createUser st (Some (Obj props1)) = (Return u1, st1) ->
  get_prop props1 "email" = Some (Str e1) ->
  get_prop props2 "email" = Some (Str e2) ->
  toLowerCase e1 = toLowerCase e2 ->
  safeParse CreateUserSchema (Some (Obj props2)) = Zod.Success d2 ->
  UsersService.createUser st1 (Some (Obj props2))
  = (Throw (duplicate_email_error (toLowerCase (trim e2))), st1)
  /\ UsersController.createUser st1 (Some (Obj props2))
     = (Return {| UsersController.Envelope.success := false;
                  UsersController.Envelope.message := "User already exists";
                  UsersController.Envelope.data := None;
                  UsersController.Envelope.errors :=
                    Some [FieldError.Build "email"
                            "User with this email already exists"
                            (Some (Str (toLowerCase (trim e2))))] |}, st1).
Proof.
  intros Hfirst Hget1 Hget2 Hcase Hv2.
  destruct (createUser_step st (Some (Obj props1)))
    as [[e He] | (d1 & u & _ & Hv1 & _ & Hstep & _ & Hem)];
    [congruence|].
  rewrite Hstep in Hfirst. inversion Hfirst; subst u1 st1; clear Hfirst.
  destruct (CreateUserSchema_email _ _ Hv1)
    as (p1 & raw1 & [= <-] & Hraw1 & _ & Hd1).
  destruct (CreateUserSchema_email _ _ Hv2)
    as (p2 & raw2 & [= <-] & Hraw2 & _ & Hd2).
  assert (raw1 = e1) as -> by congruence.
  assert (raw2 = e2) as -> by congruence.
  assert (Hsame : User.email u = CreateUserDto.email d2).
  { rewrite Hem, Hd1, Hd2, <- !trim_toLowerCase. now rewrite Hcase. }
  assert (Hthrow :
    UsersService.createUser
      {| rows := rows st ++ [u]; clock := S (clock st) |} (Some (Obj props2))
    = (Throw (duplicate_email_error (toLowerCase (trim e2))),
       {| rows := rows st ++ [u]; clock := S (clock st) |})).
  { unfold UsersService.createUser. rewrite object_body_valid, Hv2.
    destruct (find_has_email_Some (rows st ++ [u]) (CreateUserDto.email d2))
      as [x Hx].
    { rewrite <- Hsame. apply list_elem_of_fmap_2, elem_of_app. right.
      apply list_elem_of_singleton. reflexivity. }
    unfold findUnique_email. cbn [rows]. rewrite Hx, Hd2. reflexivity. }
  split; [exact Hthrow|].
  unfold UsersController.createUser. rewrite Hthrow. reflexivity.
Qed.

End CreateDuplicates.

(** ** Updates *)

Section Updates.
Import Js Schema Nest Prisma Spec.
Context `{!Runtime}.

Lemma replace_row_ids l id u u' :
  find (has_id id) l = Some u -> User.id u' = id ->
  User.id <$> replace_row id u' l = User.id <$> l.
Proof.
  intros (l1 & l2 & -> & Hid & Hrep & _)%find_has_id_split Hid'.
  rewrite Hrep, !fmap_app, !fmap_cons. congruence.
Qed.

(** In a consistent store no row of another identifier holds the email
    of a given row. *)
Lemma own_email_free st id u :
  consistent st -> findUnique_id st id = Some u ->
  forall x, x ∈ rows st -> User.email x = User.email u -> User.id x = id.
Proof.
  intros Hc [Hin Hid]%find_has_id x Hx He.
  rewrite <- Hid. f_equal.
  eapply NoDup_fmap_eq; eauto. apply (emails_unique _ Hc).
Qed.

(** C5. Only a row of another identifier can make an update fail with
    'Email already exists': when [updateUser] throws that error, the
    validated email of the request is held by a row whose identifier is
    not the one being updated. Hence, in a store reached by the
    service, an update whose validated email is the user's own current
    email (alone or with other fields) passes the check, and the update
    goes through with the email as it was. A body that carries the
    current email of the user as it is stored is such an update. *)
Theorem C5_update_own_email :
  (forall st id userData,
     fst (UsersService.updateUser st id userData)
     = Throw (BadRequest_text "Email already exists") ->
     exists v e other,
       safeParse UpdateUserSchema userData = Zod.Success v
       /\ UpdateUserDto.email v = Some e
       /\ other ∈ rows st /\ User.email other = e /\ User.id other <> id)
  /\ (forall st id props v u,
        reachable st ->
        findUnique_id st id = Some u ->
        safeParse UpdateUserSchema (Some (Obj props)) = Zod.Success v ->
        UpdateUserDto.email v = Some (User.email u) ->
        exists u' st',
          UsersService.updateUser st id (Some (Obj props))
          = (Return (Some u'), st')
          /\ User.email u' = User.email u /\ User.id u' = id)
  /\ (forall st id props v u,
        reachable st ->
        findUnique_id st id = Some u ->
        get_prop props "email" = Some (Str (User.email u)) ->
        safeParse UpdateUserSchema (Some (Obj props)) = Zod.Success v ->
        UpdateUserDto.email v = Some (User.email u)).
Proof.
  split; [|split].
  3: {
    intros st id props v u Hr Hu Hget Hv.
    rewrite (UpdateUserSchema_email_present _ _ _ Hv Hget). f_equal.
    apply reachable_consistent in Hr as [_ _ _ Hnorm].
    rewrite Forall_forall in Hnorm. apply Hnorm.
    now apply find_has_id in Hu. }
  - intros st id userData. unfold UsersService.updateUser.
    destruct (UsersService.invalid_body userData); [discriminate|].
    destruct (safeParse UpdateUserSchema userData) as [v|] eqn:Hv;
      [|discriminate].
    destruct (findUnique_id st id) as [u|]; [|discriminate].
    destruct (UsersService.email_given v) as [e|] eqn:He.
    + destruct (findFirst_email_not_id st e id) as [other|] eqn:Ho.
      * intros _. apply find_elem_of in Ho as [Hin Hb].
        apply andb_true_iff in Hb as [Hb1 Hb2].
        unfold has_email, has_id in Hb1, Hb2.
        apply bool_decide_eq_true in Hb1.
        apply negb_true_iff, bool_decide_eq_false in Hb2.
        exists v, e, other. repeat split; auto using email_given_inv.
      * destruct (update st id _) as [[? ?]|]; discriminate.
    + destruct (update st id _) as [[? ?]|]; discriminate.
  - intros st id props v u Hr Hu Hv He.
    apply reachable_consistent in Hr.
    pose proof (own_email_free st id u Hr Hu) as Hown.
    pose proof (find_has_id _ _ _ Hu) as [Hin Hid].
    unfold UsersService.updateUser.
    rewrite object_body_valid, Hv, Hu, (email_given_Some _ _ _ Hv He).
    assert (Hfree : findFirst_email_not_id st (User.email u) id = None).
    { apply find_None_elem_of. intros x Hx. unfold has_email, has_id.
      case_bool_decide as Hxe; [|reflexivity].
      rewrite bool_decide_eq_true_2 by auto. reflexivity. }
    rewrite Hfree. unfold update. rewrite Hu.
    cbn [UsersService.change_set UserUpdateInput.email]. rewrite He.
    cbn [from_option].
    assert (Hno : email_conflict st (User.email u) (Some id) = false).
    { unfold email_conflict. apply andb_false_iff. right.
      apply not_true_iff_false. intros (x & Hx & Hb)%existsb_exists.
      apply andb_true_iff in Hb as [Hb1 Hb2]. unfold has_email in Hb1.
      apply bool_decide_eq_true in Hb1.
      apply negb_true_iff, bool_decide_eq_false in Hb2. apply Hb2.
      f_equal. symmetry. apply Hown; [now apply list_elem_of_In | exact Hb1]. }
    rewrite Hno. unfold has_id at 1. cbn [apply_update User.id default].
    rewrite bool_decide_eq_true_2 by exact Hid. cbn [negb andb orb].
    eexists _, _. split; [reflexivity|]. cbn. rewrite He. auto.
Qed.

(** C6. An update never changes an identifier, whatever the request
    body holds: the identifiers of the rows, in order, are the same
    before and after; the row an update returns has the identifier that
    was asked for; the change set handed to the store never names the
    identifier; and an id property in the body is stripped by
    validation, so that the update does what it does without it. *)
Theorem C6_update_keeps_identifier st id userData :
  ids (snd (UsersService.updateUser st id userData)) = ids st
  /\ (forall u, fst (UsersService.updateUser st id userData) = Return (Some u)
                -> User.id u = id)
  /\ (forall v, safeParse UpdateUserSchema userData = Zod.Success v ->
                UserUpdateInput.id (UsersService.change_set v) = None)
  /\ (forall props x,
        UsersService.updateUser st id (Some (Obj (("id", x) :: props)))
        = UsersService.updateUser st id (Some (Obj props))).
Proof.
  split; [|split; [|split]]; [| |reflexivity|reflexivity].
  - destruct (updateUser_step st id userData)
      as [[e ->] | (v & u & _ & Hu & _ & Hstep)]; [reflexivity|].
    cbn zeta in Hstep. rewrite Hstep. unfold ids. cbn [snd rows].
    eapply replace_row_ids; [exact Hu|]. cbn. now apply find_has_id in Hu.
  - destruct (updateUser_step st id userData)
      as [[e ->] | (v & u & _ & Hu & _ & Hstep)]; [discriminate|].
    cbn zeta in Hstep. rewrite Hstep. cbn [fst]. intros u' [= <-].
    cbn. now apply find_has_id in Hu.
Qed.

(** C8. When the body of an update is an object that fails the schema,
    [updateUser] throws a client error with one message: 'Validation
    failed: ' followed by the 'path: message' pairs of the issues, in
    issue order, joined by ', '. The error has no [errors] list, unlike
    the one [createUser] throws on a body that fails its schema, which
    lists a field, message and received value per issue. The store is
    left as it was. *)
Theorem C8_update_validation_message st id props issues :
  safeParse UpdateUserSchema (Some (Obj props)) = Zod.Failure issues ->
  UsersService.updateUser st id (Some (Obj props))
  = (Throw (BadRequestException
              {| ResponseBody.message :=
                   "Validation failed: "
                   +:+ join ", "
                         (map (fun i =>
                                 join "." (map key_to_string (Zod.path i))
                                 +:+ ": " +:+ Zod.message i) issues);
                 ResponseBody.errors := None;
                 ResponseBody.error := Some "Bad Request";
                 ResponseBody.statusCode := Some 400%nat |}), st)
  /\ (forall issues',
        safeParse CreateUserSchema (Some (Obj props)) = Zod.Failure issues' ->
        UsersService.createUser st (Some (Obj props))
        = (Throw (BadRequestException
                    {| ResponseBody.message := "Validation failed";
                       ResponseBody.errors :=
                         Some (map (UsersService.format_issue
                                      (Some (Obj props))) issues');
                       ResponseBody.error := None;
                       ResponseBody.statusCode := None |}), st)).
Proof.
  intros Hv. split.
  - unfold UsersService.updateUser. rewrite object_body_valid, Hv.
    reflexivity.
  - intros issues' Hc. unfold UsersService.createUser.
    rewrite object_body_valid, Hc. reflexivity.
Qed.

End Updates.

(** ** Deleting *)

Section Deletes.
Import Js Schema Nest Prisma Spec.

(** C7. Deleting an identifier that no row has throws the client error
    'User with id <id> not found', which names the identifier, and
    leaves the store, and with it the number of users, as it was; the
    request is answered with status 400 and that message. *)
Theorem C7_delete_absent st id :
  id ∉ ids st ->
  UsersService.deleteUser st id
  = (Throw (BadRequest_text ("User with id " +:+ id +:+ " not found")), st)
  /\ count (snd (UsersService.deleteUser st id)) = count st
  /\ UsersController.DELETE_one st id
     = ({| status := 400;
           body := inr {| ResponseBody.message :=
                            "User with id " +:+ id +:+ " not found";
                          ResponseBody.errors := None;
                          ResponseBody.error := Some "Bad Request";
                          ResponseBody.statusCode := Some 400%nat |} |}, st).
Proof.
  intros Hid%find_has_id_None.
  assert (E : UsersService.deleteUser st id
              = (Throw (BadRequest_text
                          ("User with id " +:+ id +:+ " not found")), st)).
  { unfold UsersService.deleteUser, findUnique_id. now rewrite Hid. }
  split; [exact E|]. split; [now rewrite E|].
  unfold UsersController.DELETE_one, UsersController.deleteUser.
  rewrite E. reflexivity.
Qed.

End Deletes.

(** ** The handlers *)

Section Handlers.
Import Js Schema Nest Prisma Spec.
Context `{!Runtime}.

(** C9. The delete and update handlers never answer with their
    'User not found' envelope: the service call they wrap throws, or
    resolves to a row, and never to null. In particular, for an
    identifier that no row has, both service calls throw a client
    error. *)
Theorem C9_not_found_envelope_unreachable st id userData :
  fst (UsersController.deleteUser st id)
    <> Return UsersController.not_found_envelope
  /\ fst (UsersController.updateUser st id userData)
       <> Return UsersController.not_found_envelope
  /\ fst (UsersService.deleteUser st id) <> Return None
  /\ fst (UsersService.updateUser st id userData) <> Return None
  /\ (id ∉ ids st ->
      fst (UsersService.deleteUser st id) = Throw (UsersService.not_found id)
      /\ exists response,
           fst (UsersService.updateUser st id userData)
           = Throw (BadRequestException response)).
Proof.
  split; [|split; [|split; [|split]]].
  1-4: unfold UsersController.deleteUser, UsersController.updateUser;
    destruct (deleteUser_step st id) as [[e Hd] | (u & _ & Hd)];
    destruct (updateUser_step st id userData)
      as [[e' Hu] | (v & u' & _ & _ & _ & Hu)];
    cbn zeta in Hu; rewrite ?Hd, ?Hu; cbn; discriminate.
  intros Hid%find_has_id_None.
  unfold UsersService.deleteUser, UsersService.updateUser, findUnique_id.
  rewrite Hid. split; [reflexivity|].
  destruct (UsersService.invalid_body userData); [cbn; eauto|].
  destruct (safeParse UpdateUserSchema userData); cbn; eauto.
Qed.

Lemma POST_create_status st userData :
  status (fst (UsersController.POST_create st userData)) = 201%nat.
Proof.
  unfold UsersController.POST_create, UsersController.createUser.
  destruct (UsersService.createUser st userData) as [[u|[r|reason]] st'];
    reflexivity.
Qed.

(** C4 (amended). The create endpoint always answers with status 201,
    the status code declared for the handler, because the handler
    returns an envelope in every case and never throws. On success the
    envelope carries the created user. When validation fails, and when
    the email is already in the store, the envelope has success:false
    and carries the field errors, and the store is left as it was. *)
Theorem C4_create_endpoint st userData :
  status (fst (UsersController.POST_create st userData)) = 201%nat
  /\ (forall u st1,
        UsersService.createUser st userData = (Return u, st1) ->
        UsersController.POST_create st userData
        = ({| status := 201;
              body := inl {| UsersController.Envelope.success := true;
                             UsersController.Envelope.message :=
                               "User created successfully";
                             UsersController.Envelope.data := Some u;
                             UsersController.Envelope.errors := None |} |},
           st1))
  /\ (forall props issues,
        userData = Some (Obj props) ->
        safeParse CreateUserSchema userData = Zod.Failure issues ->
        UsersController.POST_create st userData
        = ({| status := 201;
              body := inl {| UsersController.Envelope.success := false;
                             UsersController.Envelope.message :=
                               "Validation failed";
                             UsersController.Envelope.data := None;
                             UsersController.Envelope.errors :=
                               Some (map (UsersService.format_issue userData)
                                         issues) |} |},
           st))
  /\ (forall props data,
        userData = Some (Obj props) ->
        safeParse CreateUserSchema userData = Zod.Success data ->
        CreateUserDto.email data ∈ emails st ->
        UsersController.POST_create st userData
        = ({| status := 201;
              body := inl {| UsersController.Envelope.success := false;
                             UsersController.Envelope.message :=
                               "User already exists";
                             UsersController.Envelope.data := None;
                             UsersController.Envelope.errors :=
                               Some [FieldError.Build "email"
                                       "User with this email already exists"
                                       (Some (Str (CreateUserDto.email data)))]
                          |} |},
           st)).
Proof.
  split; [apply POST_create_status|].
  unfold UsersController.POST_create, UsersController.createUser.
  split; [|split].
  - intros u st1 ->. reflexivity.
  - intros props issues -> Hv. unfold UsersService.createUser.
    rewrite object_body_valid, Hv. reflexivity.
  - intros props data -> Hv Hin. unfold UsersService.createUser.
    rewrite object_body_valid, Hv.
    apply find_has_email_Some in Hin as [x Hx].
    unfold findUnique_email. rewrite Hx. reflexivity.
Qed.

End Handlers.

(** ** Paging *)

Section Paging.
Import Js Schema Nest Prisma Spec.

Lemma or_else_truthy x d : truthy d = true -> truthy (or_else x d) = true.
Proof.
  intros Hd. unfold or_else. destruct x as [n|]; [|exact Hd].
  destruct (truthy n) eqn:E; [exact E | exact Hd].
Qed.

(** The ceiling of the quotient, as the service computes it. *)
Lemma ceil_div_is_ceiling n l :
  l <> 0 -> is_ceiling n l (- ((- n) / l)).
Proof.
  intros Hl. unfold is_ceiling.
  pose proof (Z.div_mod (- n) l Hl) as Hdm.
  destruct (0 <? l) eqn:E.
  - apply Z.ltb_lt in E.
    pose proof (Z.mod_pos_bound (- n) l E). nia.
  - apply Z.ltb_ge in E.
    assert (Hneg : l < 0) by lia.
    pose proof (Z.mod_neg_bound (- n) l Hneg). nia.
Qed.

Lemma ceil_div_nonneg n l : 0 <= n -> 0 < l -> 0 <= - ((- n) / l).
Proof.
  intros Hn Hl.
  pose proof (Z.div_mod (- n) l ltac:(lia)) as Hdm.
  pose proof (Z.mod_pos_bound (- n) l Hl). nia.
Qed.

Lemma ceil_div_nonpos n l : 0 <= n -> l < 0 -> - ((- n) / l) <= 0.
Proof.
  intros Hn Hl.
  pose proof (Z.div_mod (- n) l ltac:(lia)) as Hdm.
  pose proof (Z.mod_neg_bound (- n) l Hl). nia.
Qed.

(** The current page of a listing with a finite limit: an integer from
    1 on, equal to the clamped request when the limit is positive and
    to 1 when it is negative. *)
Lemma currentPage_finite p n l :
  truthy p = true -> 0 <= n -> l <> 0 ->
  exists c,
    Math_max (Fin 1) (Math_min p (Fin (- ((- n) / l)))) = Fin c
    /\ 1 <= c
    /\ (0 < l -> Fin c = clamp_page p (Fin (- ((- n) / l))))
    /\ (l < 0 -> c = 1).
Proof.
  intros Hp Hn Hl. set (tp := - ((- n) / l)).
  assert (Htp : (0 < l -> 0 <= tp) /\ (l < 0 -> tp <= 0)).
  { split; intros; [now apply ceil_div_nonneg | now apply ceil_div_nonpos]. }
  clearbody tp. unfold clamp_page.
  destruct p as [| | |z]; [discriminate| | |]; cbn.
  - exists (Z.max 1 tp).
    split; [reflexivity|]. split; [lia|]. split; [|lia].
    intros Hpos. case_bool_decide as E; [inversion E; subst; reflexivity|].
    assert (tp <> 0) by congruence. f_equal. lia.
  - exists 1.
    split; [reflexivity|]. split; [lia|]. split; [|lia].
    intros Hpos. case_bool_decide; reflexivity.
  - exists (Z.max 1 (Z.min z tp)).
    split; [reflexivity|]. split; [lia|]. split; [|lia].
    intros Hpos. case_bool_decide as E.
    { inversion E; subst. f_equal. lia. }
    assert (tp <> 0) by congruence.
    destruct (z <? 1) eqn:E1; [apply Z.ltb_lt in E1; f_equal; lia|].
    apply Z.ltb_ge in E1.
    destruct (tp <? z) eqn:E2;
      [apply Z.ltb_lt in E2 | apply Z.ltb_ge in E2]; f_equal; lia.
Qed.

(** A listing with a finite limit returns; its fields are these. *)
Lemma getAllUsers_finite_limit st query l :
  or_else (PaginationQuery.limit query) (Fin 5) = Fin l ->
  let p := or_else (PaginationQuery.page query) (Fin 1) in
  let n := Z.of_nat (count st) in
  let tp := - ((- n) / l) in
  l <> 0 /\
  exists c data,
    1 <= c
    /\ (0 < l -> Fin c = clamp_page p (Fin tp))
    /\ (l < 0 -> c = 1)
    /\ findMany st (Fin ((c - 1) * l)) (Fin l) = Some data
    /\ UsersService.getAllUsers st (Some query)
       = Return {| UsersService.Page.data := data;
                   UsersService.Page.totalUsers := Fin n;
                   UsersService.Page.totalPages := Fin tp;
                   UsersService.Page.currentPage := Fin c;
                   UsersService.Page.limit := Fin l;
                   UsersService.Page.hasNext := c <? tp;
                   UsersService.Page.hasPrev := 1 <? c |}.
Proof.
  intros HL p n tp.
  assert (Hl : l <> 0).
  { pose proof (or_else_truthy (PaginationQuery.limit query) (Fin 5) eq_refl)
      as Ht. rewrite HL in Ht. cbn in Ht. intros ->. discriminate. }
  split; [exact Hl|].
  assert (Hp : truthy p = true) by (apply or_else_truthy; reflexivity).
  destruct (currentPage_finite p n l Hp ltac:(lia) Hl)
    as (c & Hc & Hc1 & Hclamp & Hneg).
  fold tp in Hc, Hclamp.
  assert (Hskip : ((c - 1) * l <? 0) = false).
  { apply Z.ltb_ge. destruct (Z.lt_ge_cases l 0) as [Hn|Hn]; [|nia].
    rewrite (Hneg Hn). lia. }
  exists c. eexists. split; [exact Hc1|]. split; [exact Hclamp|].
  split; [exact Hneg|]. split.
  { unfold findMany. rewrite Hskip. reflexivity. }
  unfold UsersService.getAllUsers. cbn [default from_option id].
  fold p. rewrite HL. fold n. cbn [Math_ceil_div].
  rewrite (proj2 (Z.eqb_neq l 0) Hl). fold tp. rewrite Hc.
  cbn [sub mul]. unfold findMany. rewrite Hskip. reflexivity.
Qed.

(** A listing whose limit overflowed to an infinity is refused by the
    store. *)
Lemma getAllUsers_infinite_limit st query :
  isFinite (or_else (PaginationQuery.limit query) (Fin 5)) = false ->
  exists e, UsersService.getAllUsers st (Some query) = Throw e.
Proof.
  intros HL. unfold UsersService.getAllUsers. cbn [default from_option id].
  pose proof (or_else_truthy (PaginationQuery.limit query) (Fin 5) eq_refl)
    as Ht.
  pose proof (or_else_truthy (PaginationQuery.page query) (Fin 1) eq_refl)
    as Hp.
  destruct (or_else (PaginationQuery.limit query) (Fin 5)) as [| | |l];
    try discriminate;
    destruct (or_else (PaginationQuery.page query) (Fin 1)) as [| | |z];
    try discriminate; cbn -[Z.max Z.min];
    try (replace (Z.max 1 (Z.min z 0)) with 1 by lia); cbn; eauto.
Qed.

Lemma insert_desc_length u l : length (insert_desc u l) = S (length l).
Proof.
  induction l as [|v l IH]; cbn [insert_desc]; [reflexivity|].
  destruct (User.createdAt v <? User.createdAt u)%nat; cbn [length];
    [reflexivity | now rewrite IH].
Qed.

Lemma newest_first_length l : length (newest_first l) = length l.
Proof.
  induction l as [|u l IH]; cbn [newest_first foldr length]; [reflexivity|].
  rewrite insert_desc_length. f_equal. exact IH.
Qed.

(** A store with twelve users, asked for pages of five. *)
Lemma twelve_by_five st p c :
  count st = 12%nat ->
  Fin c = clamp_page (or_else (Some (Fin p)) (Fin 1)) (Fin 3) ->
  forall data,
    findMany st (Fin ((c - 1) * 5)) (Fin 5) = Some data ->
    (99 <= p -> c = 3 /\ length data = 2%nat) /\ (p = 3 -> c = 3).
Proof.
  intros Hn Hc data Hdata.
  assert (Hc3 : 3 <= p -> c = 3).
  { intros Hp. unfold clamp_page, or_else, truthy in Hc.
    rewrite bool_decide_eq_false_2 in Hc by discriminate.
    rewrite (proj2 (Z.eqb_neq p 0)) in Hc by lia. cbn in Hc.
    destruct (p <? 1) eqn:E1; [apply Z.ltb_lt in E1; lia|].
    destruct (3 <? p) eqn:E2; [congruence|].
    apply Z.ltb_ge in E2. assert (p = 3) by lia. congruence. }
  split; [|intros ->; apply Hc3; lia].
  intros Hp. rewrite (Hc3 ltac:(lia)) in *. split; [reflexivity|].
  unfold findMany in Hdata. cbn in Hdata. inversion Hdata; subst data.
  rewrite length_firstn, length_skipn, newest_first_length.
  unfold count in Hn. rewrite Hn. reflexivity.
Qed.

(** C2 (amended). For every list request whose limit L (default 5) is a
    positive integer, with requested page p (default 1): the listing
    returns; totalPages is the ceiling of totalUsers / L; currentPage is
    p clamped into [1, totalPages], and 1 when totalPages is 0; the
    records are those the store gives for the offset
    (currentPage - 1) * L and the limit L, at most L of them;
    hasNext = (currentPage < totalPages) and hasPrev = (currentPage > 1).
    In particular, in a store of 12 users with L = 5, a request for page
    99 gets what a request for page 3 gets: page 3 of 3, with 2
    records. *)
Theorem C2_listing :
  (forall st query l,
     or_else (PaginationQuery.limit query) (Fin 5) = Fin l ->
     0 < l ->
     listing_as_specified st query)
  /\ (forall st,
        count st = 12%nat ->
        UsersService.getAllUsers st
          (Some (PaginationQuery.Build (Some (Fin 99)) (Some (Fin 5))))
        = UsersService.getAllUsers st
            (Some (PaginationQuery.Build (Some (Fin 3)) (Some (Fin 5))))
        /\ exists data,
             length data = 2%nat
             /\ UsersService.getAllUsers st
                  (Some (PaginationQuery.Build (Some (Fin 99)) (Some (Fin 5))))
                = Return {| UsersService.Page.data := data;
                            UsersService.Page.totalUsers := Fin 12;
                            UsersService.Page.totalPages := Fin 3;
                            UsersService.Page.currentPage := Fin 3;
                            UsersService.Page.limit := Fin 5;
                            UsersService.Page.hasNext := false;
                            UsersService.Page.hasPrev := true |}).
Proof.
  split.
  - intros st query l HL Hpos.
    destruct (getAllUsers_finite_limit st query l HL)
      as (Hl & c & data & Hc1 & Hclamp & _ & Hdata & Hget).
    unfold listing_as_specified. rewrite HL, Hget.
    eexists. split; [reflexivity|]. cbn.
    split; [reflexivity|]. split; [reflexivity|].
    split; [exists l, (- ((- Z.of_nat (count st)) / l));
            auto using ceil_div_is_ceiling|].
    split; [now apply Hclamp|]. split; [exact Hdata|].
    split; [|split; reflexivity].
    apply Z.ltb_ge. unfold findMany in Hdata.
    destruct (_ <? 0); [discriminate|].
    rewrite (proj2 (Z.leb_le 0 l)) in Hdata by lia.
    inversion Hdata; subst data. rewrite length_firstn. lia.
  - intros st Hn.
    destruct (getAllUsers_finite_limit st
                (PaginationQuery.Build (Some (Fin 99)) (Some (Fin 5))) 5
                eq_refl)
      as (_ & c & data & _ & Hclamp & _ & Hdata & Hget).
    destruct (getAllUsers_finite_limit st
                (PaginationQuery.Build (Some (Fin 3)) (Some (Fin 5))) 5
                eq_refl)
      as (_ & c' & data' & _ & Hclamp' & _ & Hdata' & Hget').
    cbn [PaginationQuery.page] in *. rewrite Hn in *.
    change (- (- Z.of_nat 12 / 5)) with 3 in *.
    change (Z.of_nat 12) with 12 in *.
    destruct (twelve_by_five st 99 c Hn (Hclamp ltac:(lia)) data Hdata)
      as [H99 _].
    destruct (H99 ltac:(lia)) as [-> Hlen].
    destruct (twelve_by_five st 3 c' Hn (Hclamp' ltac:(lia)) data' Hdata')
      as [_ H3].
    rewrite (H3 eq_refl) in *.
    assert (data' = data) as -> by congruence.
    split; [congruence|]. exists data. split; [exact Hlen | exact Hget].
Qed.

(** A defaulted parameter gives way to the default. *)
Lemma defaulted_or_else param d :
  defaulted param -> or_else (UsersController.parse_param param) d = d.
Proof.
  unfold defaulted, UsersController.parse_param.
  destruct param as [s|]; [|reflexivity].
  case_bool_decide; [reflexivity|].
  intros [-> | ->]; reflexivity.
Qed.

(** The service reads its query through the defaults only. *)
Lemma getAllUsers_or_else st q1 q2 :
  or_else (PaginationQuery.page q1) (Fin 1)
  = or_else (PaginationQuery.page q2) (Fin 1) ->
  or_else (PaginationQuery.limit q1) (Fin 5)
  = or_else (PaginationQuery.limit q2) (Fin 5) ->
  UsersService.getAllUsers st (Some q1) = UsersService.getAllUsers st (Some q2).
Proof.
  intros Hp Hl. unfold UsersService.getAllUsers.
  cbn [default from_option id]. now rewrite Hp, Hl.
Qed.

Lemma controller_getAllUsers_Return st query r :
  UsersController.getAllUsers st query = Return r ->
  exists page,
    UsersService.getAllUsers st
      (Some {| PaginationQuery.page :=
                 UsersController.parse_param (UsersController.Query.page query);
               PaginationQuery.limit :=
                 UsersController.parse_param
                   (UsersController.Query.limit query) |})
    = Return page
    /\ UsersController.PaginatedResponse.totalUsers r
       = UsersService.Page.totalUsers page
    /\ UsersController.PaginatedResponse.totalPages r
       = UsersService.Page.totalPages page
    /\ UsersController.PaginatedResponse.currentPage r
       = UsersService.Page.currentPage page
    /\ UsersController.PaginatedResponse.limit r
       = UsersService.Page.limit page.
Proof.
  unfold UsersController.getAllUsers.
  destruct (UsersService.getAllUsers st _) as [page|e]; [|discriminate].
  intros [= <-]. exists page. auto.
Qed.

(** C10. A page or limit parameter that is absent, or that parses to
    NaN or to 0, is replaced by its default: the listing is the one a
    request for page 1, respectively for limit 5, gets. The divisor of
    the page count is therefore never 0 (nor NaN). A request whose limit
    is defaulted is answered with a listing of limit 5, and every listing
    that is returned has finite totalUsers, totalPages, currentPage and
    limit. *)
Theorem C10_listing_defaults st query :
  (defaulted (UsersController.Query.page query) ->
   UsersController.getAllUsers st query
   = UsersController.getAllUsers st
       (UsersController.Query.Build (Some "1")
          (UsersController.Query.limit query)))
  /\ (defaulted (UsersController.Query.limit query) ->
      effective_limit query = Fin 5
      /\ UsersController.getAllUsers st query
         = UsersController.getAllUsers st
             (UsersController.Query.Build
                (UsersController.Query.page query) (Some "5")))
  /\ effective_limit query <> Fin 0
  /\ effective_limit query <> NaN
  /\ (defaulted (UsersController.Query.limit query) ->
      exists r, UsersController.getAllUsers st query = Return r
                /\ UsersController.PaginatedResponse.limit r = Fin 5)
  /\ (forall r,
        UsersController.getAllUsers st query = Return r ->
        UsersController.PaginatedResponse.limit r = effective_limit query
        /\ isFinite (UsersController.PaginatedResponse.totalUsers r) = true
        /\ isFinite (UsersController.PaginatedResponse.totalPages r) = true
        /\ isFinite (UsersController.PaginatedResponse.currentPage r) = true
        /\ isFinite (UsersController.PaginatedResponse.limit r) = true).
Proof.
  pose proof (or_else_truthy
                (UsersController.parse_param
                   (UsersController.Query.limit query)) (Fin 5) eq_refl)
    as Htruthy.
  fold (effective_limit query) in Htruthy.
  split; [|split; [|split; [|split; [|split]]]].
  - intros Hd. unfold UsersController.getAllUsers.
    erewrite getAllUsers_or_else; [reflexivity| |reflexivity].
    cbn [PaginationQuery.page UsersController.Query.page].
    now rewrite defaulted_or_else.
  - intros Hd. split; [now apply defaulted_or_else|].
    unfold UsersController.getAllUsers.
    erewrite getAllUsers_or_else; [reflexivity|reflexivity|].
    cbn [PaginationQuery.limit UsersController.Query.limit].
    now rewrite defaulted_or_else.
  - intros E. rewrite E in Htruthy. discriminate.
  - intros E. rewrite E in Htruthy. discriminate.
  - intros Hd.
    destruct (getAllUsers_finite_limit st
                {| PaginationQuery.page :=
                     UsersController.parse_param
                       (UsersController.Query.page query);
                   PaginationQuery.limit :=
                     UsersController.parse_param
                       (UsersController.Query.limit query) |} 5
                (defaulted_or_else _ _ Hd))
      as (_ & c & data & _ & _ & _ & _ & Hget).
    unfold UsersController.getAllUsers. rewrite Hget. eauto.
  - intros r (page & Hget & Hu & Htp & Hcp & Hlim)%controller_getAllUsers_Return.
    rewrite Hu, Htp, Hcp, Hlim. clear Hu Htp Hcp Hlim.
    unfold effective_limit in *.
    set (pq := {| PaginationQuery.page :=
                    UsersController.parse_param
                      (UsersController.Query.page query);
                  PaginationQuery.limit :=
                    UsersController.parse_param
                      (UsersController.Query.limit query) |}) in *.
    change (UsersController.parse_param (UsersController.Query.limit query))
      with (PaginationQuery.limit pq) in Htruthy |- *.
    destruct (or_else (PaginationQuery.limit pq) (Fin 5)) as [| | |l] eqn:HL.
    + discriminate.
    + destruct (getAllUsers_infinite_limit st pq) as [e He];
        [now rewrite HL|].
      rewrite He in Hget. discriminate.
    + destruct (getAllUsers_infinite_limit st pq) as [e He];
        [now rewrite HL|].
      rewrite He in Hget. discriminate.
    + destruct (getAllUsers_finite_limit st pq l HL)
        as (_ & c & data & _ & _ & _ & _ & Hget').
      rewrite Hget' in Hget. inversion Hget; subst page. cbn. auto.
Qed.

End Paging.

(** ** The program on concrete requests *)

Section Concrete.
Import Js Schema Nest Prisma Spec.
Local Existing Instance Sample.plain.

(** A decidable proposition about concrete data, settled by running its
    decision procedure. *)
Ltac by_decision := apply (bool_decide_unpack _); vm_compute; exact I.

Lemma populate_reachable `{!Runtime} st emails :
  reachable st -> reachable (Sample.populate st emails).
Proof.
  revert st. induction emails as [|e rest IH]; intros st Hst; cbn; [exact Hst|].
  apply IH. now apply reach_create.
Qed.

Lemma C1_email_uniqueness_witness :
  NoDup (emails Sample.store12)
  /\ UsersService.createUser Sample.store12
       (Some (Sample.user_body "Again" "A@X.com"))
     = (Throw (duplicate_email_error "a@x.com"), Sample.store12).
Proof.
  destruct C1_email_uniqueness as (Hinv & Hcreate & _).
  split.
  - apply Hinv. apply populate_reachable. constructor.
  - assert (Hv : exists data,
              safeParse CreateUserSchema
                (Some (Sample.user_body "Again" "A@X.com")) = Zod.Success data
              /\ CreateUserDto.email data = "a@x.com")
      by (eexists; split; vm_compute; reflexivity).
    destruct Hv as (data & Hv & He). rewrite <- He.
    apply (Hcreate Sample.store12 _ data Hv).
    rewrite He. by_decision.
Defined.

Lemma C2_listing_witness :
  listing_as_specified Sample.store12
    (PaginationQuery.Build (Some (Fin 99)) (Some (Fin 5))).
Proof.
  apply (proj1 C2_listing Sample.store12 _ 5); [reflexivity | lia].
Defined.

(** A request for a negative limit, [GET /users?limit=-5], on the store
    of twelve users: the listing returns five records, which is not at
    most -5, with totalPages -2. *)
Lemma C2_listing_counterexample :
  (exists r,
     UsersController.getAllUsers Sample.store12
       (UsersController.Query.Build None (Some "-5")) = Return r
     /\ length (UsersController.PaginatedResponse.data r) = 5%nat
     /\ UsersController.PaginatedResponse.limit r = Fin (-5)
     /\ UsersController.PaginatedResponse.totalPages r = Fin (-2))
  /\ ~ listing_as_specified Sample.store12
        (PaginationQuery.Build None (Some (Fin (-5)))).
Proof.
  split.
  - eexists. split; [vm_compute; reflexivity|]. repeat split.
  - intros (r & Hr & _ & _ & _ & _ & _ & Hmost & _).
    vm_compute in Hr. inversion Hr; subst r. vm_compute in Hmost.
    discriminate.
Qed.

Lemma C3_case_insensitive_duplicate_witness :
  let st1 := snd (UsersService.createUser Prisma.empty
                    (Some (Sample.user_body "Al" "A@x.com"))) in
  UsersService.createUser st1 (Some (Sample.user_body "Bo" "a@x.com"))
  = (Throw (duplicate_email_error "a@x.com"), st1).
Proof.
  refine (proj1 (C3_case_insensitive_duplicate Prisma.empty
                   (Sample.user_props "Al" "A@x.com")
                   (Sample.user_props "Bo" "a@x.com")
                   "A@x.com" "a@x.com" _ _ _ _ _ _ _ _));
    try reflexivity; vm_compute; reflexivity.
Defined.

(** A create request with an empty object as body: validation fails, the
    handler returns the failure envelope, and the status of the answer is
    201, not 200. The same for a second request with the email of the
    first. *)
Lemma C4_create_endpoint_counterexample :
  (exists issues,
     safeParse CreateUserSchema (Some (Obj [])) = Zod.Failure issues)
  /\ (exists env st',
        UsersController.POST_create Prisma.empty (Some (Obj []))
        = ({| status := 201; body := inl env |}, st')
        /\ UsersController.Envelope.success env = false
        /\ UsersController.Envelope.message env = "Validation failed")
  /\ status (fst (UsersController.POST_create Prisma.empty (Some (Obj []))))
     <> 200%nat
  /\ (exists env st',
        UsersController.POST_create Sample.store1
          (Some (Sample.user_body "Bo" "a@x.com"))
        = ({| status := 201; body := inl env |}, st')
        /\ UsersController.Envelope.success env = false
        /\ UsersController.Envelope.message env = "User already exists").
Proof.
  split; [eexists; vm_compute; reflexivity|].
  split; [eexists _, _; split; [vm_compute; reflexivity|split; reflexivity]|].
  split; [vm_compute; discriminate|].
  eexists _, _; split; [vm_compute; reflexivity|split; reflexivity].
Qed.

Lemma C4_create_endpoint_witness :
  exists env,
    UsersController.POST_create Sample.store1
      (Some (Sample.user_body "Bo" "A@X.COM"))
    = ({| status := 201; body := inl env |}, Sample.store1)
    /\ UsersController.Envelope.success env = false.
Proof.
  destruct (C4_create_endpoint Sample.store1
              (Some (Sample.user_body "Bo" "A@X.COM"))) as (_ & _ & _ & Hdup).
  assert (Hv : exists data,
            safeParse CreateUserSchema
              (Some (Sample.user_body "Bo" "A@X.COM")) = Zod.Success data
            /\ CreateUserDto.email data = "a@x.com")
    by (eexists; split; vm_compute; reflexivity).
  destruct Hv as (data & Hv & He).
  eexists. split; [|shelve].
  apply (Hdup _ data eq_refl Hv).
  rewrite He. by_decision.
  Unshelve. reflexivity.
Defined.

Lemma C5_update_own_email_witness :
  exists u' st',
    UsersService.updateUser Sample.store1 "0"
      (Some (Obj [("email", Str "A@x.com"); ("name", Str "Alice")]))
    = (Return (Some u'), st')
    /\ User.email u' = "a@x.com" /\ User.id u' = "0".
Proof.
  assert (Hu : exists u, findUnique_id Sample.store1 "0" = Some u
                         /\ User.email u = "a@x.com")
    by (eexists; split; vm_compute; reflexivity).
  destruct Hu as (u & Hu & He).
  assert (Hv : exists v,
            safeParse UpdateUserSchema
              (Some (Obj [("email", Str "A@x.com"); ("name", Str "Alice")]))
            = Zod.Success v
            /\ UpdateUserDto.email v = Some "a@x.com")
    by (eexists; split; vm_compute; reflexivity).
  destruct Hv as (v & Hv & Hve).
  rewrite <- He in Hve |- *.
  apply (proj1 (proj2 C5_update_own_email) Sample.store1 "0" _ v u); auto.
  apply populate_reachable. constructor.
Defined.

Lemma C6_update_keeps_identifier_witness :
  exists u st',
    UsersService.updateUser Sample.store12 "3"
      (Some (Obj [("id", Str "0"); ("name", Str "Renamed")]))
    = (Return (Some u), st')
    /\ User.id u = "3" /\ User.name u = "Renamed"
    /\ ids st' = ids Sample.store12.
Proof.
  destruct (C6_update_keeps_identifier Sample.store12 "3"
              (Some (Obj [("id", Str "0"); ("name", Str "Renamed")])))
    as (Hids & Hret & _).
  eexists _, _. split; [vm_compute; reflexivity|].
  split; [apply Hret; vm_compute; reflexivity|].
  split; [reflexivity|].
  etransitivity; [|exact Hids]. vm_compute. reflexivity.
Defined.

Lemma C7_delete_absent_witness :
  UsersService.deleteUser Sample.store12 "42"
  = (Throw (BadRequest_text "User with id 42 not found"), Sample.store12).
Proof.
  apply (C7_delete_absent Sample.store12 "42").
  by_decision.
Defined.

Lemma C8_update_validation_message_witness :
  fst (UsersService.updateUser Sample.store1 "0"
         (Some (Obj Sample.faulty_update)))
  = Throw (BadRequest_text
             ("Validation failed: name: Invalid input: expected string, "
              +:+ "received number, email: Please provide a valid email "
              +:+ "address, skills.0.tags.0: Each skill tag must be at "
              +:+ "least 3 characters long")).
Proof.
  rewrite (proj1 (C8_update_validation_message Sample.store1 "0"
                    Sample.faulty_update _ eq_refl)).
  vm_compute. reflexivity.
Defined.

Lemma C9_not_found_envelope_unreachable_witness :
  fst (UsersService.deleteUser Sample.store12 "42")
  = Throw (BadRequest_text "User with id 42 not found").
Proof.
  apply (C9_not_found_envelope_unreachable Sample.store12 "42" None).
  by_decision.
Defined.

Lemma C10_listing_defaults_witness :
  UsersController.getAllUsers Sample.store12
    (UsersController.Query.Build (Some "abc") (Some "0"))
  = UsersController.getAllUsers Sample.store12
      (UsersController.Query.Build (Some "1") (Some "0"))
  /\ UsersController.getAllUsers Sample.store12
       (UsersController.Query.Build (Some "abc") (Some "0"))
     = UsersController.getAllUsers Sample.store12
         (UsersController.Query.Build (Some "abc") (Some "5")).
Proof.
  destruct (C10_listing_defaults Sample.store12
              (UsersController.Query.Build (Some "abc") (Some "0")))
    as (Hpage & Hlimit & _).
  split.
  - apply Hpage. left. reflexivity.
  - apply Hlimit. right. reflexivity.
Defined.

End Concrete.

(** * Further properties of the service *)

(** ** Creating *)

Section Creating.
Import Js Schema Nest Prisma Spec Coverage.
Context `{!Runtime}.



Lemma find_app_fresh (f : User.t -> bool) l u :
  (forall x, x ∈ l -> f x = false) -> f u = true ->
  find f (l ++ [u]) = Some u.
Proof.
  intros Hl Hu. induction l as [|x l IH]; cbn.
  - now rewrite Hu.
  - rewrite (Hl x) by (apply elem_of_cons; now left).
    apply IH. intros y Hy. apply Hl. apply elem_of_cons. now right.
Qed.

(** A row with an identifier that the clock has not issued yet is found
    behind all the rows of the store. *)
Lemma find_fresh_id st u :
  issued st -> User.id u = pretty (clock st) ->
  find (has_id (User.id u)) (rows st ++ [u]) = Some u.
Proof.
  intros Hiss Hid. apply find_app_fresh.
  - intros x Hx. unfold has_id. apply bool_decide_eq_false. intros E.
    unfold issued in Hiss. rewrite Forall_forall in Hiss.
    destruct (Hiss x Hx) as (k & Hk & Hxk).
    rewrite Hid, Hxk in E. apply (inj pretty) in E. lia.
  - unfold has_id. now apply bool_decide_eq_true.
Qed.



(** X2. Round trip: in a store reached by the service, the user a create
    request returns is the user a lookup of its identifier returns in the
    store the create left, and the lookup endpoint answers 200 with the
    success envelope around the same row. *)
Theorem X2_create_then_get st userData u st' :
  reachable st ->
  UsersService.createUser st userData = (Return u, st') ->
  UsersService.getUserById st' (User.id u) = Return (Some u)
  /\ UsersController.GET_one st' (User.id u)
     = {| status := 200;
          body := inl (UsersController.found_envelope
                         "User retrieved successfully" u) |}.
Proof.
  intros Hr%reachable_consistent Hc.
  destruct (createUser_step st userData)
    as [[e He] | (data & u0 & _ & _ & _ & Hstep & Hid & _)]; [congruence|].
  rewrite Hstep in Hc. inversion Hc; subst u0 st'; clear Hc.
  assert (Hget : UsersService.getUserById
                   {| rows := rows st ++ [u]; clock := S (clock st) |}
                   (User.id u) = Return (Some u)).
  { unfold UsersService.getUserById, findUnique_id. cbn [rows].
    now rewrite (find_fresh_id st u (ids_issued _ Hr) Hid). }
  split; [exact Hget|].
  unfold UsersController.GET_one, UsersController.getUserById.
  rewrite Hget. reflexivity.
Qed.

End Creating.

(** ** Reading and deleting *)

Section ReadingDeleting.
Import Js Schema Nest Prisma Spec Coverage.
Context `{!Runtime}.

(** X3. Looking a user up never throws, and the lookup endpoint always
    answers 200: with the 'User not found' envelope when no row has the
    identifier, and with the success envelope around a row of that
    identifier when there is one. *)
Theorem X3_get_by_id st id :
  status (UsersController.GET_one st id) = 200%nat
  /\ (id ∉ ids st ->
      UsersService.getUserById st id = Return None
      /\ UsersController.GET_one st id
         = {| status := 200; body := inl UsersController.not_found_envelope |})
  /\ (id ∈ ids st ->
      exists u,
        u ∈ rows st /\ User.id u = id
        /\ UsersService.getUserById st id = Return (Some u)
        /\ UsersController.GET_one st id
           = {| status := 200;
                body := inl (UsersController.found_envelope
                               "User retrieved successfully" u) |}).
Proof.
  unfold UsersController.GET_one, UsersController.getUserById,
    UsersService.getUserById, findUnique_id.
  destruct (find (has_id id) (rows st)) as [u|] eqn:E.
  - split; [reflexivity|]. split.
    + intros Hnot. apply find_has_id_None in Hnot. congruence.
    + intros _. exists u. apply find_has_id in E as [Hin Hid]. auto.
  - split; [reflexivity|]. split; [auto|].
    intros Hin. apply find_has_id_None in E. contradiction.
Qed.

(** In a store without repeated identifiers the lookup of the identifier
    of a row finds that row. *)
Lemma find_own_id st u :
  NoDup (ids st) -> u ∈ rows st ->
  findUnique_id st (User.id u) = Some u.
Proof.
  intros Hnd Hin. unfold findUnique_id.
  destruct (find (has_id (User.id u)) (rows st)) as [x|] eqn:E.
  - apply find_has_id in E as [Hx Hid]. f_equal.
    eapply NoDup_fmap_eq; eauto.
  - apply find_has_id_None in E. exfalso. apply E.
    now apply list_elem_of_fmap_2.
Qed.

(** X4. In a store reached by the service, deleting the identifier of a
    stored user returns that user and removes exactly that row: the
    count drops by one, the identifier is gone, every other row stays,
    a second delete of the identifier throws the not-found client error,
    and the endpoint answers 200 with the deleted user. *)
Theorem X4_delete_present st u :
  reachable st -> u ∈ rows st ->
  exists st',
    UsersService.deleteUser st (User.id u) = (Return (Some u), st')
    /\ count st = S (count st')
    /\ (User.id u ∉ ids st')
    /\ (forall x, x ∈ rows st' <-> x ∈ rows st /\ x <> u)
    /\ UsersService.deleteUser st' (User.id u)
       = (Throw (UsersService.not_found (User.id u)), st')
    /\ UsersController.DELETE_one st (User.id u)
       = ({| status := 200;
             body := inl (UsersController.found_envelope
                            "User deleted successfully" u) |}, st').
Proof.
  intros Hr%reachable_consistent Hin.
  pose proof (find_own_id st u (ids_unique _ Hr) Hin) as Hfind.
  pose proof (ids_unique _ Hr) as Hnd. unfold ids in Hnd.
  destruct (find_has_id_split _ _ _ Hfind) as (l1 & l2 & Hrows & _ & _ & Hrem).
  rewrite Hrows, fmap_app, fmap_cons in Hnd.
  apply NoDup_app in Hnd as (H1 & H12 & H2).
  apply NoDup_cons in H2 as [Hu2 H2].
  assert (Hu1 : User.id u ∉ User.id <$> l1).
  { intros Hu1. apply (H12 _ Hu1). apply elem_of_cons. now left. }
  assert (Hgone : User.id u ∉ User.id <$> (l1 ++ l2)).
  { rewrite fmap_app, elem_of_app. tauto. }
  assert (Hdel : UsersService.deleteUser st (User.id u)
                 = (Return (Some u),
                    {| rows := l1 ++ l2; clock := S (clock st) |})).
  { unfold UsersService.deleteUser, delete. rewrite Hfind, Hrem. reflexivity. }
  eexists. split; [exact Hdel|].
  split; [unfold count; cbn [rows]; rewrite Hrows, !length_app; cbn; lia|].
  split; [exact Hgone|]. split; [|split].
  - intros x. cbn [rows]. rewrite Hrows, !elem_of_app, elem_of_cons. split.
    + intros Hx. split; [tauto|]. intros ->. apply Hgone.
      apply list_elem_of_fmap_2, elem_of_app. exact Hx.
    + intros [[?|[?|?]] ?]; tauto.
  - unfold UsersService.deleteUser.
    apply find_has_id_None in Hgone. unfold findUnique_id. cbn [rows].
    now rewrite Hgone.
  - unfold UsersController.DELETE_one, UsersController.deleteUser.
    rewrite Hdel. reflexivity.
Qed.

Lemma remove_row_app_fresh id l u :
  (forall x, x ∈ l -> has_id id x = false) -> has_id id u = true ->
  remove_row id (l ++ [u]) = l.
Proof.
  intros Hl Hu. induction l as [|x l IH]; cbn.
  - now rewrite Hu.
  - rewrite (Hl x) by (apply elem_of_cons; now left). f_equal.
    apply IH. intros y Hy. apply Hl. apply elem_of_cons. now right.
Qed.

(** X5. Round trip: in a store reached by the service, deleting the user
    that a create request just returned gives that user back and leaves
    the rows the store had before the create. *)
Theorem X5_create_then_delete st userData u st1 :
  reachable st ->
  UsersService.createUser st userData = (Return u, st1) ->
  exists st2,
    UsersService.deleteUser st1 (User.id u) = (Return (Some u), st2)
    /\ rows st2 = rows st.
Proof.
  intros Hr%reachable_consistent Hc.
  destruct (createUser_step st userData)
    as [[e He] | (data & u0 & _ & _ & _ & Hstep & Hid & _)]; [congruence|].
  rewrite Hstep in Hc. inversion Hc; subst u0 st1; clear Hc.
  pose proof (find_fresh_id st u (ids_issued _ Hr) Hid) as Hfind.
  unfold UsersService.deleteUser, delete, findUnique_id. cbn [rows clock].
  rewrite Hfind. eexists. split; [reflexivity|]. cbn [rows].
  apply remove_row_app_fresh.
  - intros x Hx. unfold has_id. apply bool_decide_eq_false. intros E.
    pose proof (ids_issued _ Hr) as Hiss. unfold issued in Hiss.
    rewrite Forall_forall in Hiss. destruct (Hiss x Hx) as (k & Hk & Hxk).
    rewrite Hid, Hxk in E. apply (inj pretty) in E. lia.
  - unfold has_id. now apply bool_decide_eq_true.
Qed.

Lemma replace_row_length id u' l : length (replace_row id u' l) = length l.
Proof.
  induction l as [|x l IH]; cbn; [reflexivity|].
  destruct (has_id id x); cbn; [reflexivity | now rewrite IH].
Qed.

(** X6. A write that throws leaves the store as it was, and a write that
    returns changes the number of users by exactly what it is: a create
    adds one, an update keeps it, a delete takes one away; each of them
    advances the clock by one. *)
Theorem X6_writes_are_atomic st id userData :
  (forall e, fst (UsersService.createUser st userData) = Throw e ->
             snd (UsersService.createUser st userData) = st)
  /\ (forall u, fst (UsersService.createUser st userData) = Return u ->
                count (snd (UsersService.createUser st userData))
                = S (count st)
                /\ clock (snd (UsersService.createUser st userData))
                   = S (clock st))
  /\ (forall e, fst (UsersService.updateUser st id userData) = Throw e ->
                snd (UsersService.updateUser st id userData) = st)
  /\ (forall u, fst (UsersService.updateUser st id userData) = Return u ->
                count (snd (UsersService.updateUser st id userData))
                = count st
                /\ clock (snd (UsersService.updateUser st id userData))
                   = S (clock st))
  /\ (forall e, fst (UsersService.deleteUser st id) = Throw e ->
                snd (UsersService.deleteUser st id) = st)
  /\ (forall u, fst (UsersService.deleteUser st id) = Return u ->
                S (count (snd (UsersService.deleteUser st id))) = count st
                /\ clock (snd (UsersService.deleteUser st id))
                   = S (clock st)).
Proof.
  destruct (createUser_step st userData)
    as [[e1 Hc] | (data & u1 & _ & _ & _ & Hc & _ & _)];
  destruct (updateUser_step st id userData)
    as [[e2 Hu] | (v & u2 & _ & Hfu & _ & Hu)];
  destruct (deleteUser_step st id) as [[e3 Hd] | (u3 & Hfd & Hd)];
  cbn zeta in Hu; rewrite Hc, Hu, Hd; cbn [fst snd];
  repeat split; try discriminate; try reflexivity;
  unfold count; cbn [rows];
  rewrite ?length_app, ?replace_row_length; cbn [length]; try lia;
  apply find_has_id_split in Hfd as (l1 & l2 & -> & _ & _ & ->);
  rewrite !length_app; cbn [length]; lia.
Qed.



End ReadingDeleting.

(** ** The schemas *)

Section SchemaFacts.
Import Js Zod Schema Nest Prisma Spec Coverage.
Context `{!Runtime}.

Lemma issues_of_ap {A B} (rf : result (A -> B)) (ra : result A) :
  issues_of (ap rf ra) = issues_of rf ++ issues_of ra.
Proof.
  destruct rf, ra; cbn; auto using app_nil_r.
Qed.

Lemma issues_of_Failure {A} (r : result A) :
  issues_of r <> [] -> r = Failure (issues_of r).
Proof. destruct r; cbn; congruence. Qed.

(** The issues of a create body are the issues of its seven fields, in
    the order of the schema. *)
Lemma CreateUserSchema_issues props :
  issues_of (safeParse CreateUserSchema (Some (Obj props)))
  = issues_of (field props "name" name_schema)
    ++ issues_of (field props "ext" ext_schema)
    ++ issues_of (field props "phone" phone_schema)
    ++ issues_of (field props "email" email_schema)
    ++ issues_of (field props "dateOfBirth" dateOfBirth_schema)
    ++ issues_of (field props "password" password_schema)
    ++ issues_of (field props "skills" skills_schema).
Proof.
  unfold safeParse, CreateUserSchema, z_object.
  rewrite !issues_of_ap. cbn [issues_of app]. now rewrite <- !app_assoc.
Qed.

(** A create body validates when its seven fields do. *)
Lemma CreateUserSchema_fields props d :
  safeParse CreateUserSchema (Some (Obj props)) = Success d
  <-> field props "name" name_schema = Success (CreateUserDto.name d)
      /\ field props "ext" ext_schema = Success (CreateUserDto.ext d)
      /\ field props "phone" phone_schema = Success (CreateUserDto.phone d)
      /\ field props "email" email_schema = Success (CreateUserDto.email d)
      /\ field props "dateOfBirth" dateOfBirth_schema
         = Success (CreateUserDto.dateOfBirth d)
      /\ field props "password" password_schema
         = Success (CreateUserDto.password d)
      /\ field props "skills" skills_schema
         = Success (CreateUserDto.skills d).
Proof.
  unfold safeParse, CreateUserSchema, z_object. split.
  - intros E. repeat (apply ap_Success in E as (? & ? & E & ? & ->)).
    inversion E; subst; clear E. cbn. auto 10.
  - intros (H1 & H2 & H3 & H4 & H5 & H6 & H7).
    rewrite H1, H2, H3, H4, H5, H6, H7. destruct d. reflexivity.
Qed.

(** An update body validates when its seven optional fields do. *)
Lemma UpdateUserSchema_fields props v :
  safeParse UpdateUserSchema (Some (Obj props)) = Success v
  <-> field props "name" (optional name_schema)
      = Success (UpdateUserDto.name v)
      /\ field props "ext" (optional ext_schema)
         = Success (UpdateUserDto.ext v)
      /\ field props "phone" (optional phone_schema)
         = Success (UpdateUserDto.phone v)
      /\ field props "email" (optional email_schema)
         = Success (UpdateUserDto.email v)
      /\ field props "dateOfBirth" (optional dateOfBirth_schema)
         = Success (UpdateUserDto.dateOfBirth v)
      /\ field props "password" (optional password_schema)
         = Success (UpdateUserDto.password v)
      /\ field props "skills" (optional skills_schema)
         = Success (UpdateUserDto.skills v).
Proof.
  unfold safeParse, UpdateUserSchema, z_object. split.
  - intros E. repeat (apply ap_Success in E as (? & ? & E & ? & ->)).
    inversion E; subst; clear E. cbn. auto 10.
  - intros (H1 & H2 & H3 & H4 & H5 & H6 & H7).
    rewrite H1, H2, H3, H4, H5, H6, H7. destruct v. reflexivity.
Qed.

(** A field that rejects a missing value validates under [optional] to
    the value it validates to without. *)
Lemma field_optional_Some {A} props k (schema : option value -> result A) a :
  (forall a', schema None <> Success a') ->
  field props k schema = Success a
  <-> field props k (optional schema) = Success (Some a).
Proof.
  intros Hreq. unfold field, optional.
  destruct (get_prop props k) as [x|].
  - destruct (schema (Some x)); cbn; split; congruence.
  - split.
    + intros E%at_key_Success. now apply Hreq in E.
    + discriminate.
Qed.

(** An optional field of a missing key validates to nothing. *)
Lemma field_optional_missing {A} props k (schema : option value -> result A) o :
  get_prop props k = None ->
  field props k (optional schema) = Success o -> o = None.
Proof.
  intros Hget. unfold field, optional. rewrite Hget. cbn. congruence.
Qed.

(** An optional field of a present key validates to what the field
    validates the value to. *)
Lemma field_optional_present {A} props k
    (schema : option value -> result A) o x :
  get_prop props k = Some x ->
  field props k (optional schema) = Success o ->
  exists a, o = Some a /\ schema (Some x) = Success a.
Proof.
  intros Hget. unfold field, optional. rewrite Hget.
  intros (a & Ha & ->)%at_key_Success%map_result_Success. eauto.
Qed.

(** X9. The update schema is the create schema made partial: a body is a
    valid create request exactly when it is a valid update request that
    carries all seven fields, and both validate it to the same values. *)
Theorem X9_create_body_is_update_body props d :
  safeParse CreateUserSchema (Some (Obj props)) = Success d
  <-> safeParse UpdateUserSchema (Some (Obj props)) = Success (as_update d).
Proof.
  rewrite CreateUserSchema_fields, UpdateUserSchema_fields.
  cbn [as_update UpdateUserDto.name UpdateUserDto.ext UpdateUserDto.phone
       UpdateUserDto.email UpdateUserDto.dateOfBirth UpdateUserDto.password
       UpdateUserDto.skills].
  rewrite <- !field_optional_Some by discriminate. reflexivity.
Qed.

(** X10. A create body that lacks one of the seven fields of the schema
    is rejected with 'Validation failed', the store untouched, and the
    errors name the missing field: one of them has the key as its field
    and no received value. *)
Theorem X10_create_missing_field st props k :
  k ∈ required_keys ->
  get_prop props k = None ->
  exists errors e,
    UsersService.createUser st (Some (Obj props))
    = (Throw (BadRequest_object "Validation failed" errors), st)
    /\ e ∈ errors
    /\ FieldError.field e = k
    /\ FieldError.receivedValue e = None.
Proof.
  intros Hk Hget.
  assert (Hissue : exists msg,
            Issue [Name k] msg
            ∈ issues_of (safeParse CreateUserSchema (Some (Obj props)))).
  { rewrite CreateUserSchema_issues. unfold required_keys in Hk.
    repeat (apply elem_of_cons in Hk as [->|Hk]); [..|inversion Hk];
      unfold field; rewrite Hget; cbn; eexists;
      rewrite ?elem_of_app, ?elem_of_cons; cbn; auto 10. }
  destruct Hissue as (msg & Hin).
  assert (Hfail : safeParse CreateUserSchema (Some (Obj props))
                  = Failure (issues_of (safeParse CreateUserSchema
                                          (Some (Obj props))))).
  { apply issues_of_Failure. intros E. rewrite E in Hin. inversion Hin. }
  unfold UsersService.createUser. rewrite object_body_valid, Hfail.
  eexists _, (UsersService.format_issue (Some (Obj props)) (Issue [Name k] msg)).
  split; [reflexivity|]. split.
  { apply list_elem_of_In, in_map, list_elem_of_In, Hin. }
  unfold UsersService.format_issue. cbn [path map key_to_string join
    fold_left optional_index FieldError.field FieldError.receivedValue].
  split; [|exact Hget].
  case_bool_decide as E; [|reflexivity].
  subst k. unfold required_keys in Hk.
  repeat (apply elem_of_cons in Hk as [Hk|Hk]; [discriminate|]).
  inversion Hk.
Qed.

(** X14. The body guard lets exactly the JSON objects through. Any other
    body (none, null, a boolean, a number, a string, an array) is turned
    down before validation, the store untouched: by [createUser] with
    'Invalid request body' and one error for the field 'body', by
    [updateUser] with 'Invalid input: Expected an object'. *)
Theorem X14_body_guard st id userData :
  (UsersService.invalid_body userData = false
   <-> exists props, userData = Some (Obj props))
  /\ ((forall props, userData <> Some (Obj props)) ->
      UsersService.createUser st userData
      = (Throw (BadRequest_object "Invalid request body"
                  [FieldError.Build "body"
                     "Request body must be a valid JSON object" None]), st)
      /\ UsersService.updateUser st id userData
         = (Throw (BadRequest_text "Invalid input: Expected an object"), st)).
Proof.
  assert (Hguard : UsersService.invalid_body userData = false
                   <-> exists props, userData = Some (Obj props)).
  { unfold UsersService.invalid_body.
    destruct userData as [[|b|z|s|items|props]|]; cbn;
      try (split; [discriminate | intros [? [=]]]).
    - destruct b; (split; [discriminate | intros [? [=]]]).
    - destruct (z =? 0); (split; [discriminate | intros [? [=]]]).
    - case_bool_decide; (split; [discriminate | intros [? [=]]]).
    - split; eauto. }
  split; [exact Hguard|].
  intros Hno.
  assert (Hinv : UsersService.invalid_body userData = true).
  { destruct (UsersService.invalid_body userData); [reflexivity|].
    destruct (proj1 Hguard eq_refl) as [props ->]. now destruct (Hno props). }
  unfold UsersService.createUser, UsersService.updateUser.
  now rewrite Hinv.
Qed.

(** What a successful parse of each field says about the input. *)

Lemma name_schema_Success v a :
  name_schema v = Success a
  <-> exists raw, v = Some (Str raw)
                  /\ (2 <= String.length raw <= 100)%nat /\ a = trim raw.
Proof.
  unfold name_schema, z_string, string_schema.
  destruct v as [[| | |raw| |]|];
    try (split; [discriminate | intros (? & [=] & _)]).
  cbn [run_checks min max].
  destruct (Nat.leb_spec 2 (String.length raw)) as [E1|E1];
    destruct (Nat.leb_spec (String.length raw) 100) as [E2|E2]; cbn;
    (split;
     [ intros E;
       first [ discriminate E
             | inversion E; subst; exists raw; repeat split;
               first [reflexivity | lia] ]
     | intros (r & [= <-] & Hlen & ->); first [reflexivity | exfalso; lia] ]).
Qed.

Lemma ext_schema_Success v a :
  ext_schema v = Success a
  <-> exists raw, v = Some (Str raw)
                  /\ (1 <= String.length raw)%nat /\ a = trim raw.
Proof.
  unfold ext_schema, z_string, string_schema.
  destruct v as [[| | |raw| |]|];
    try (split; [discriminate | intros (? & [=] & _)]).
  cbn [run_checks min].
  destruct (Nat.leb_spec 1 (String.length raw)) as [E1|E1]; cbn;
    (split;
     [ intros E;
       first [ discriminate E
             | inversion E; subst; exists raw; repeat split;
               first [reflexivity | lia] ]
     | intros (r & [= <-] & Hlen & ->); first [reflexivity | exfalso; lia] ]).
Qed.

Lemma phone_schema_Success v a :
  phone_schema v = Success a
  <-> exists raw, v = Some (Str raw)
                  /\ (5 <= String.length raw)%nat /\ a = trim raw.
Proof.
  unfold phone_schema, z_string, string_schema.
  destruct v as [[| | |raw| |]|];
    try (split; [discriminate | intros (? & [=] & _)]).
  cbn [run_checks min].
  destruct (Nat.leb_spec 5 (String.length raw)) as [E1|E1]; cbn;
    (split;
     [ intros E;
       first [ discriminate E
             | inversion E; subst; exists raw; repeat split;
               first [reflexivity | lia] ]
     | intros (r & [= <-] & Hlen & ->); first [reflexivity | exfalso; lia] ]).
Qed.

Lemma password_schema_Success v a :
  password_schema v = Success a
  <-> v = Some (Str a) /\ (6 <= String.length a <= 100)%nat.
Proof.
  unfold password_schema, z_string, string_schema.
  destruct v as [[| | |raw| |]|];
    try (split; [discriminate | intros ([=] & _)]).
  cbn [run_checks min max].
  destruct (Nat.leb_spec 6 (String.length raw)) as [E1|E1];
    destruct (Nat.leb_spec (String.length raw) 100) as [E2|E2]; cbn;
    (split;
     [ intros E;
       first [ discriminate E
             | inversion E; subst; repeat split; first [reflexivity | lia] ]
     | intros ([= <-] & Hlen); first [reflexivity | exfalso; lia] ]).
Qed.

Lemma dateOfBirth_schema_Success v a :
  dateOfBirth_schema v = Success a
  <-> exists raw t, v = Some (Str raw) /\ Date_parse raw = Some t
                    /\ a = Some t.
Proof.
  unfold dateOfBirth_schema, transform, z_string, string_schema.
  destruct v as [[| | |raw| |]|];
    try (split; [discriminate | intros (? & ? & [=] & _)]).
  cbn [run_checks refine].
  destruct (Date_parse raw) as [t|] eqn:E; cbn.
  - rewrite E. split; [intros [= <-]; eauto | intros (r & t' & [= <-] & Ht & ->)].
    rewrite E in Ht. now inversion Ht.
  - split; [discriminate | intros (r & t' & [= <-] & Ht & _)].
    rewrite E in Ht. discriminate.
Qed.

Lemma parse_items_Success {A} (elem : option value -> result A) i items l :
  parse_items elem i items = Success l ->
  length l = length items
  /\ Forall (fun a => exists x, elem (Some x) = Success a) l.
Proof.
  revert i l. induction items as [|x items IH]; intros i l; cbn.
  - intros [= <-]. split; [reflexivity | constructor].
  - intros (f & rest & (a & Ha%at_key_Success & ->)%map_result_Success
            & Hrest & ->)%ap_Success.
    destruct (IH _ _ Hrest) as [Hlen Hall]. cbn. split; [now rewrite Hlen|].
    constructor; eauto.
Qed.

(** An array that validates has the minimal length, and its elements
    validate one by one. *)
Lemma z_array_Success {A} (elem : option value -> result A) n msg v l :
  z_array elem n msg v = Success l ->
  (n <= length l)%nat
  /\ Forall (fun a => exists x, elem (Some x) = Success a) l.
Proof.
  unfold z_array. destruct v as [[| | | |items|]|]; try discriminate.
  intros (f & [] & (l' & Hitems & ->)%map_result_Success & Hmin & ->)%ap_Success.
  destruct (n <=? length items)%nat eqn:E; [|discriminate].
  apply Nat.leb_le in E.
  destruct (parse_items_Success _ _ _ _ Hitems) as [Hlen Hall].
  split; [lia | exact Hall].
Qed.

Lemma skills_schema_Success v l :
  skills_schema v = Success l ->
  l <> [] /\ Forall (fun sk => Skill.tags sk <> []) l.
Proof.
  intros [Hlen Hall]%z_array_Success. split.
  - destruct l; [cbn in Hlen; lia | discriminate].
  - eapply Forall_impl; [exact Hall|]. intros sk [x Hx].
    unfold skill_schema, z_object in Hx.
    destruct x as [| | | | |props]; try discriminate.
    apply ap_Success in Hx as (f & tags & Hf & Htags & ->).
    apply ap_Success in Hf as (g & fld & [= <-] & _ & ->).
    cbn. apply at_key_Success, z_array_Success in Htags as [Hn _].
    destruct tags; [cbn in Hn; lia | discriminate].
Qed.

Lemma email_normal_has_at raw :
  email_pattern raw = true -> In "@"%char (chars (toLowerCase (trim raw))).
Proof.
  intros Hat%email_pattern_at. unfold toLowerCase, trim.
  rewrite !chars_of_chars.
  change "@"%char with (lower_char "@"%char). apply in_map.
  apply trim_end_keeps; [|reflexivity].
  apply trim_start_keeps; [exact Hat | reflexivity].
Qed.

(** X15. What validation guarantees of a create request. The lengths
    are checked on the strings as they come and the values are trimmed
    afterwards: the name had 2 to 100 characters, the country code at
    least 1, the phone number at least 5, and each is stored trimmed;
    the password had 6 to 100 characters and is kept as it came; the
    email matched the pattern and is stored trimmed and lower-cased; the
    date of birth is the date its string parses to; there is at least
    one skill, and every skill has at least one tag. *)
Theorem X15_create_validation_sound props d :
  safeParse CreateUserSchema (Some (Obj props)) = Success d ->
  (exists raw, get_prop props "name" = Some (Str raw)
               /\ (2 <= String.length raw <= 100)%nat
               /\ CreateUserDto.name d = trim raw)
  /\ (exists raw, get_prop props "ext" = Some (Str raw)
                  /\ (1 <= String.length raw)%nat
                  /\ CreateUserDto.ext d = trim raw)
  /\ (exists raw, get_prop props "phone" = Some (Str raw)
                  /\ (5 <= String.length raw)%nat
                  /\ CreateUserDto.phone d = trim raw)
  /\ (exists raw, get_prop props "email" = Some (Str raw)
                  /\ email_pattern raw = true
                  /\ CreateUserDto.email d = toLowerCase (trim raw))
  /\ (exists raw t, get_prop props "dateOfBirth" = Some (Str raw)
                    /\ Date_parse raw = Some t
                    /\ CreateUserDto.dateOfBirth d = Some t)
  /\ (get_prop props "password" = Some (Str (CreateUserDto.password d))
      /\ (6 <= String.length (CreateUserDto.password d) <= 100)%nat)
  /\ CreateUserDto.skills d <> []
  /\ Forall (fun sk => Skill.tags sk <> []) (CreateUserDto.skills d).
Proof.
  intros (H1 & H2 & H3 & H4 & H5 & H6 & H7)%CreateUserSchema_fields.
  unfold field in *.
  apply at_key_Success, name_schema_Success in H1.
  apply at_key_Success, ext_schema_Success in H2.
  apply at_key_Success, phone_schema_Success in H3.
  apply at_key_Success, email_schema_Success in H4.
  apply at_key_Success, dateOfBirth_schema_Success in H5.
  apply at_key_Success, password_schema_Success in H6.
  apply at_key_Success, skills_schema_Success in H7.
  repeat (split; [assumption|]). exact H7.
Qed.

End SchemaFacts.

(** ** Updating, and what the stored users are like *)

Section Conformance.
Import Js Zod Schema Nest Prisma Spec Coverage.
Context `{!Runtime}.

Lemma UpdateUserSchema_object userData v :
  safeParse UpdateUserSchema userData = Success v ->
  exists props, userData = Some (Obj props).
Proof.
  unfold safeParse, UpdateUserSchema, z_object.
  destruct userData as [[| | | | |props]|]; try discriminate. eauto.
Qed.

(** X8. An update writes the validated fields of the body and nothing
    else. The row it returns has the identifier that was asked for, the
    creation time of the row it replaces and the current clock as update
    time; every field whose key the body lacks is as it was; a name,
    country code or phone number in the body is stored trimmed, an email
    trimmed and lower-cased, a password as it came, a date of birth as
    the date it parses to; the row is in the store afterwards, and so is
    every row of another identifier. *)
Theorem X8_update_frame st id props u' st' :
  UsersService.updateUser st id (Some (Obj props)) = (Return (Some u'), st') ->
  exists u,
    findUnique_id st id = Some u
    /\ User.id u' = id
    /\ User.createdAt u' = User.createdAt u
    /\ User.updatedAt u' = clock st
    /\ (get_prop props "name" = None -> User.name u' = User.name u)
    /\ (get_prop props "ext" = None -> User.ext u' = User.ext u)
    /\ (get_prop props "phone" = None -> User.phone u' = User.phone u)
    /\ (get_prop props "email" = None -> User.email u' = User.email u)
    /\ (get_prop props "dateOfBirth" = None ->
        User.dateOfBirth u' = User.dateOfBirth u)
    /\ (get_prop props "password" = None ->
        User.password u' = User.password u)
    /\ (get_prop props "skills" = None -> User.skills u' = User.skills u)
    /\ (forall raw, get_prop props "name" = Some (Str raw) ->
                    User.name u' = trim raw)
    /\ (forall raw, get_prop props "ext" = Some (Str raw) ->
                    User.ext u' = trim raw)
    /\ (forall raw, get_prop props "phone" = Some (Str raw) ->
                    User.phone u' = trim raw)
    /\ (forall raw, get_prop props "email" = Some (Str raw) ->
                    User.email u' = toLowerCase (trim raw))
    /\ (forall raw, get_prop props "password" = Some (Str raw) ->
                    User.password u' = raw)
    /\ (forall raw, get_prop props "dateOfBirth" = Some (Str raw) ->
                    User.dateOfBirth u' = Date_parse raw)
    /\ u' ∈ rows st'
    /\ (forall x, x ∈ rows st -> User.id x <> id -> x ∈ rows st').
Proof.
  intros Hupd.
  destruct (updateUser_step st id (Some (Obj props)))
    as [[e He] | (v & u & Hv & Hu & _ & Hstep)]; [congruence|].
  cbn zeta in Hstep. rewrite Hstep in Hupd.
  inversion Hupd; subst u' st'; clear Hupd Hstep.
  apply UpdateUserSchema_fields in Hv as (F1 & F2 & F3 & F4 & F5 & F6 & F7).
  pose proof (find_has_id _ _ _ Hu) as [Hin Hid].
  destruct (find_has_id_split _ _ _ Hu) as (l1 & l2 & Hrows & _ & Hrep & _).
  exists u. split; [exact Hu|]. cbn.
  split; [exact Hid|]. split; [reflexivity|]. split; [reflexivity|].
  repeat match goal with
  | |- (get_prop props ?k = None -> _) /\ _ =>
      split; [intros Hnone;
              match goal with
              | F : field props k _ = Success _ |- _ =>
                  now rewrite (field_optional_missing _ _ _ _ Hnone F)
              end|]
  end.
  split.
  { intros raw Hg.
    destruct (field_optional_present _ _ _ _ _ Hg F1) as (a & -> & Ha).
    apply name_schema_Success in Ha as (r & [= <-] & _ & ->). reflexivity. }
  split.
  { intros raw Hg.
    destruct (field_optional_present _ _ _ _ _ Hg F2) as (a & -> & Ha).
    apply ext_schema_Success in Ha as (r & [= <-] & _ & ->). reflexivity. }
  split.
  { intros raw Hg.
    destruct (field_optional_present _ _ _ _ _ Hg F3) as (a & -> & Ha).
    apply phone_schema_Success in Ha as (r & [= <-] & _ & ->). reflexivity. }
  split.
  { intros raw Hg.
    destruct (field_optional_present _ _ _ _ _ Hg F4) as (a & -> & Ha).
    apply email_schema_Success in Ha as (r & [= <-] & _ & ->). reflexivity. }
  split.
  { intros raw Hg.
    destruct (field_optional_present _ _ _ _ _ Hg F6) as (a & -> & Ha).
    apply password_schema_Success in Ha as ([= <-] & _). reflexivity. }
  split.
  { intros raw Hg.
    destruct (field_optional_present _ _ _ _ _ Hg F5) as (a & -> & Ha).
    apply dateOfBirth_schema_Success in Ha as (r & t & [= <-] & Ht & ->).
    cbn. now rewrite Ht. }
  rewrite Hrep, Hrows. split.
  - apply elem_of_app. right. apply elem_of_cons. now left.
  - intros x Hx Hne. rewrite elem_of_app, elem_of_cons in Hx.
    rewrite elem_of_app, elem_of_cons.
    destruct Hx as [?|[->|?]]; [tauto | contradiction | tauto].
Qed.

(** What [createUser] returns carries the validated fields. *)
Lemma createUser_created st userData u st' :
  UsersService.createUser st userData = (Return u, st') ->
  exists props data,
    userData = Some (Obj props)
    /\ safeParse CreateUserSchema (Some (Obj props)) = Success data
    /\ st' = {| rows := rows st ++ [u]; clock := S (clock st) |}
    /\ User.email u = CreateUserDto.email data
    /\ User.dateOfBirth u = CreateUserDto.dateOfBirth data
    /\ User.password u = CreateUserDto.password data
    /\ User.skills u = CreateUserDto.skills data
    /\ User.createdAt u = clock st.
Proof.
  unfold UsersService.createUser.
  destruct (UsersService.invalid_body userData); [discriminate|].
  destruct (safeParse CreateUserSchema userData) as [data|] eqn:Hv;
    [|discriminate].
  destruct (findUnique_email st _); [discriminate|].
  unfold create. cbn [UserCreateInput.email].
  destruct (email_conflict st _ None); [discriminate|].
  intros [= <- <-].
  destruct (CreateUserSchema_email _ _ Hv) as (props & raw & -> & _).
  exists props, data. cbn. auto 10.
Qed.

Lemma created_conformant props data u :
  safeParse CreateUserSchema (Some (Obj props)) = Success data ->
  User.email u = CreateUserDto.email data ->
  User.dateOfBirth u = CreateUserDto.dateOfBirth data ->
  User.password u = CreateUserDto.password data ->
  User.skills u = CreateUserDto.skills data ->
  schema_conformant u.
Proof.
  intros (_ & _ & _ & F4 & F5 & F6 & F7)%CreateUserSchema_fields He Hd Hp Hs.
  unfold field in *.
  apply at_key_Success, email_schema_Success in F4 as (raw & _ & Hpat & Hem).
  apply at_key_Success, dateOfBirth_schema_Success in F5 as (r & t & _ & _ & Hdt).
  apply at_key_Success, password_schema_Success in F6 as [_ Hlen].
  apply at_key_Success, skills_schema_Success in F7 as [Hne Htags].
  unfold schema_conformant. rewrite He, Hd, Hp, Hs, Hem, Hdt.
  split; [exact Hlen|]. split; [eauto|].
  split; [now apply email_normal_has_at|]. split; assumption.
Qed.

Lemma updated_conformant props v now u :
  safeParse UpdateUserSchema (Some (Obj props)) = Success v ->
  schema_conformant u ->
  schema_conformant (apply_update (UsersService.change_set v) now u).
Proof.
  intros (_ & _ & _ & F4 & F5 & F6 & F7)%UpdateUserSchema_fields
         (Hlen & Hdate & Hat & Hne & Htags).
  unfold field in *.
  apply at_key_Success, optional_Success in F4.
  apply at_key_Success, optional_Success in F5.
  apply at_key_Success, optional_Success in F6.
  apply at_key_Success, optional_Success in F7.
  unfold schema_conformant. cbn.
  destruct (UpdateUserDto.password v) as [p|]; cbn.
  1: apply password_schema_Success in F6 as [_ Hlen'].
  all: (split; [assumption|]).
  all: destruct (UpdateUserDto.dateOfBirth v) as [d|]; cbn.
  1,3: apply dateOfBirth_schema_Success in F5 as (r & t & _ & _ & ->).
  all: (split; [eauto|]).
  all: destruct (UpdateUserDto.email v) as [e|]; cbn.
  1,3,5,7: apply email_schema_Success in F4 as (raw & _ & Hpat & ->);
    apply email_normal_has_at in Hpat.
  all: (split; [assumption|]).
  all: destruct (UpdateUserDto.skills v) as [l|]; cbn;
    [apply skills_schema_Success in F7 as [? ?]|]; split; assumption.
Qed.

(** X16. Every user in a store reached by the service is as the schema
    wants it: its password has 6 to 100 characters, its date of birth is
    a date, its email contains an [@], it has at least one skill, and
    each of its skills has at least one tag. Updates keep this, since the
    fields they write went through the same schemas. *)
Theorem X16_stored_users_conformant st :
  reachable st -> Forall schema_conformant (rows st).
Proof.
  induction 1 as [|st userData Hr IH|st id userData Hr IH|st id Hr IH].
  - constructor.
  - destruct (UsersService.createUser st userData) as [[u|e] st'] eqn:E.
    + apply createUser_created in E
        as (props & data & -> & Hv & -> & He & Hd & Hp & Hs & _).
      cbn. apply Forall_app. split; [exact IH|]. apply Forall_singleton.
      eapply created_conformant; eauto.
    + destruct (createUser_step st userData)
        as [[e' He] | (? & ? & _ & _ & _ & Hs & _)]; [|congruence].
      rewrite E in He. inversion He; subst. exact IH.
  - destruct (updateUser_step st id userData)
      as [[e ->] | (v & u & Hv & Hu & _ & Hstep)]; [exact IH|].
    cbn zeta in Hstep. rewrite Hstep. cbn [snd rows].
    destruct (UpdateUserSchema_object _ _ Hv) as [props ->].
    destruct (find_has_id_split _ _ _ Hu) as (l1 & l2 & Hrows & _ & Hrep & _).
    rewrite Hrep. rewrite Hrows in IH.
    apply Forall_app in IH as [I1 I2]. apply Forall_cons in I2 as [Iu I2].
    apply Forall_app. split; [exact I1|]. apply Forall_cons. split; [|exact I2].
    eapply updated_conformant; eauto.
  - destruct (deleteUser_step st id) as [[e ->] | (u & Hu & ->)]; [exact IH|].
    cbn [snd rows].
    destruct (find_has_id_split _ _ _ Hu) as (l1 & l2 & Hrows & _ & _ & ->).
    rewrite Hrows in IH.
    apply Forall_app in IH as [I1 I2]. apply Forall_cons in I2 as [_ I2].
    apply Forall_app. now split.
Qed.

End Conformance.

(** ** The readable errors of [createUser] *)

Section ReadableErrors.
Import Js Zod Schema Nest Prisma Spec Coverage.
Context `{!Runtime}.

Lemma chars_append a b : chars (a +:+ b) = chars a ++ chars b.
Proof.
  induction a as [|c a IH]; [reflexivity|].
  change (String c a +:+ b) with (String c (a +:+ b)).
  unfold chars in *. cbn [list_ascii_of_string app]. f_equal. exact IH.
Qed.

Lemma starts_with_app p r : starts_with p (p ++ r) = true.
Proof.
  induction p as [|c p IH]; cbn; [reflexivity|].
  now rewrite bool_decide_eq_true_2, IH.
Qed.

Lemma includes_chars_prefix p r : includes_chars (p ++ r) p = true.
Proof.
  destruct (p ++ r) eqn:E; cbn; rewrite <- E, starts_with_app; reflexivity.
Qed.

(** A message that starts with a field name mentions it, whatever the
    case of the letters. *)
Lemma includes_lower_prefix a b :
  includes (toLowerCase (a +:+ b)) (toLowerCase a) = true.
Proof.
  unfold includes, toLowerCase.
  rewrite !chars_of_chars, chars_append, map_app.
  apply includes_chars_prefix.
Qed.

(** X11. The errors [createUser] builds from the validation issues are
    readable on their own: the field of an error is never empty (it is
    'root' for an issue without a path, and the dotted path otherwise),
    and unless the field is 'root' the message mentions the field, its
    letters compared without regard to case: either the message of the
    issue already did, or the field is put in front of it. An issue
    without a path keeps its message and shows the whole body as the
    received value. *)
Theorem X11_readable_errors userData err :
  let e := UsersService.format_issue userData err in
  let dotted := join "." (map key_to_string (path err)) in
  FieldError.field e <> ""
  /\ (dotted <> "" -> FieldError.field e = dotted)
  /\ (FieldError.field e = "root"
      \/ includes (toLowerCase (FieldError.message e))
                  (toLowerCase (FieldError.field e)) = true)
  /\ (FieldError.message e = message err
      \/ FieldError.message e
         = FieldError.field e +:+ ": " +:+ message err)
  /\ (path err = [] ->
      FieldError.field e = "root"
      /\ FieldError.message e = message err
      /\ FieldError.receivedValue e = userData).
Proof.
  cbn zeta. unfold UsersService.format_issue.
  cbn [FieldError.field FieldError.message FieldError.receivedValue].
  set (dotted := join "." (map key_to_string (path err))).
  set (field := if bool_decide (dotted = "") then "root" else dotted).
  assert (Hfield : field <> "").
  { unfold field. case_bool_decide; [discriminate | assumption]. }
  split; [exact Hfield|].
  split; [intros Hd; unfold field; now rewrite bool_decide_eq_false_2|].
  destruct (includes (toLowerCase (message err)) (toLowerCase field)) eqn:Hinc;
    cbn [negb andb].
  - split; [now right|]. split; [now left|].
    intros Hp. unfold field, dotted. rewrite Hp. cbn. auto.
  - case_bool_decide as Hroot; cbn [negb].
    + split; [now left|]. split; [now left|].
      intros Hp. unfold dotted. rewrite Hp. cbn. auto.
    + split; [right; apply includes_lower_prefix|]. split; [now right|].
      intros Hp. exfalso. apply Hroot. unfold field, dotted. now rewrite Hp.
Qed.

End ReadableErrors.

(** ** Pages *)

Section Pages.
Import Js Schema Nest Prisma Spec Coverage.

Lemma firstn_plus {A} n m (l : list A) :
  firstn (n + m) l = firstn n l ++ firstn m (skipn n l).
Proof.
  revert l. induction n as [|n IH]; intros l; [reflexivity|].
  destruct l as [|x l]; cbn; [now rewrite firstn_nil|]. now rewrite IH.
Qed.

(** Consecutive chunks of a list put together are its prefix. *)
Lemma chunks_concat {A} (l : list A) L k :
  concat (map (fun i => firstn L (skipn (i * L) l)) (seq 0 k))
  = firstn (k * L) l.
Proof.
  induction k as [|k IH]; [reflexivity|].
  rewrite seq_S, map_app, concat_app, IH. cbn [map concat plus].
  rewrite app_nil_r, <- firstn_plus. f_equal. lia.
Qed.

(** The current page of a listing lies between 1 and the last page. *)
Lemma clamp_page_bounds p tp c :
  truthy p = true -> 0 <= tp -> Fin c = clamp_page p (Fin tp) ->
  1 <= c <= Z.max 1 tp.
Proof.
  intros Hp Htp. unfold clamp_page.
  case_bool_decide as E; [intros [= ->]; lia|].
  assert (tp <> 0) by congruence.
  destruct p as [| | |z]; [discriminate| | |]; cbn.
  - destruct (tp <? 1) eqn:E1; intros [= ->]; lia.
  - intros [= ->]; lia.
  - destruct (z <? 1) eqn:E1; [intros [= ->]; lia|].
    apply Z.ltb_ge in E1.
    destruct (tp <? z) eqn:E2; intros [= ->];
      [apply Z.ltb_lt in E2 | apply Z.ltb_ge in E2]; lia.
Qed.

Lemma or_else_Fin z d : z <> 0 -> or_else (Some (Fin z)) d = Fin z.
Proof.
  intros Hz. unfold or_else, truthy.
  now rewrite (proj2 (Z.eqb_neq z 0) Hz).
Qed.

(** The records of a listing with a positive limit, and its fields. *)
Lemma listing_positive st query l :
  or_else (PaginationQuery.limit query) (Fin 5) = Fin l -> 0 < l ->
  let n := Z.of_nat (count st) in
  let tp := - ((- n) / l) in
  exists c,
    Fin c = clamp_page (or_else (PaginationQuery.page query) (Fin 1)) (Fin tp)
    /\ 1 <= c <= Z.max 1 tp
    /\ (c - 1) * l <= n
    /\ (n = 0 \/ (c - 1) * l < n)
    /\ (tp - 1) * l < n <= tp * l
    /\ UsersService.getAllUsers st (Some query)
       = Return {| UsersService.Page.data :=
                     firstn (Z.to_nat l)
                       (skipn (Z.to_nat ((c - 1) * l))
                          (newest_first (rows st)));
                   UsersService.Page.totalUsers := Fin n;
                   UsersService.Page.totalPages := Fin tp;
                   UsersService.Page.currentPage := Fin c;
                   UsersService.Page.limit := Fin l;
                   UsersService.Page.hasNext := c <? tp;
                   UsersService.Page.hasPrev := 1 <? c |}.
Proof.
  intros HL Hpos n tp.
  destruct (getAllUsers_finite_limit st query l HL)
    as (Hl & c & data & _ & Hclamp & _ & Hdata & Hget).
  fold n tp in Hclamp, Hget. specialize (Hclamp Hpos).
  pose proof (ceil_div_is_ceiling n l Hl) as Hceil.
  unfold is_ceiling in Hceil. rewrite (proj2 (Z.ltb_lt 0 l) Hpos) in Hceil.
  fold tp in Hceil.
  assert (Htp : 0 <= tp) by (apply ceil_div_nonneg; lia).
  pose proof (clamp_page_bounds _ _ _
                (or_else_truthy _ (Fin 1) eq_refl) Htp Hclamp) as Hc.
  exists c. split; [exact Hclamp|]. split; [exact Hc|].
  assert (Hskip : (c - 1) * l <= n /\ (n = 0 \/ (c - 1) * l < n)) by nia.
  split; [tauto|]. split; [tauto|]. split; [exact Hceil|].
  rewrite Hget. repeat f_equal.
  unfold findMany in Hdata.
  destruct (_ <? 0); [discriminate|].
  rewrite (proj2 (Z.leb_le 0 l)) in Hdata by lia. congruence.
Qed.

(** X13. A listing with a positive limit L shows the records from the
    offset on, as many as there are up to L. Because the page is clamped,
    it is empty only when the store is empty, whatever page was asked
    for; hasNext is set exactly when records are left behind the page,
    and hasPrev exactly when the offset is not 0; totalPages is 0 only
    for the empty store. *)
Theorem X13_page_contents st query l :
  or_else (PaginationQuery.limit query) (Fin 5) = Fin l -> 0 < l ->
  exists r c tp,
    UsersService.getAllUsers st (Some query) = Return r
    /\ UsersService.Page.currentPage r = Fin c
    /\ UsersService.Page.totalPages r = Fin tp
    /\ Z.of_nat (length (UsersService.Page.data r))
       = Z.min l (Z.of_nat (count st) - (c - 1) * l)
    /\ (UsersService.Page.data r = [] <-> count st = 0%nat)
    /\ (tp = 0 <-> count st = 0%nat)
    /\ (UsersService.Page.hasNext r = true
        <-> c * l < Z.of_nat (count st))
    /\ (UsersService.Page.hasPrev r = true <-> 0 < (c - 1) * l).
Proof.
  intros HL Hpos.
  destruct (listing_positive st query l HL Hpos)
    as (c & _ & Hc & Hskip & Hskip' & Hceil & Hget).
  set (n := Z.of_nat (count st)) in *.
  set (tp := - ((- n) / l)) in *.
  eexists _, c, tp. split; [exact Hget|]. cbn.
  split; [reflexivity|]. split; [reflexivity|].
  assert (Hoff : 0 <= (c - 1) * l) by nia.
  assert (Hlen : Z.of_nat (length (firstn (Z.to_nat l)
                    (skipn (Z.to_nat ((c - 1) * l)) (newest_first (rows st)))))
                 = Z.min l (n - (c - 1) * l)).
  { rewrite length_firstn, length_skipn, newest_first_length.
    fold (count st). unfold n in *. lia. }
  split; [exact Hlen|]. split; [|split; [|split]].
  - rewrite <- length_zero_iff_nil. unfold n in *. lia.
  - unfold n in *. nia.
  - rewrite Z.ltb_lt. nia.
  - rewrite Z.ltb_lt. nia.
Qed.

(** X12. The pages of a listing put one behind the other are the whole
    table, newest first: with a positive limit L, the records of the
    pages 1 to totalPages = ceil(totalUsers / L), in this order, show
    every user once and none twice. *)
Theorem X12_pages_cover_the_table st l :
  0 < l ->
  concat (map (fun i => page_data st (Z.of_nat (S i)) l)
              (seq 0 (Z.to_nat (- ((- Z.of_nat (count st)) / l)))))
  = newest_first (rows st).
Proof.
  intros Hpos.
  set (n := Z.of_nat (count st)). set (tp := - ((- n) / l)).
  assert (Hceil : (tp - 1) * l < n <= tp * l).
  { pose proof (ceil_div_is_ceiling n l ltac:(lia)) as Hceil.
    unfold is_ceiling in Hceil.
    now rewrite (proj2 (Z.ltb_lt 0 l) Hpos) in Hceil. }
  assert (Htp : 0 <= tp) by (apply ceil_div_nonneg; unfold n; lia).
  rewrite (map_ext_in _
             (fun i => firstn (Z.to_nat l)
                         (skipn (i * Z.to_nat l) (newest_first (rows st))))).
  - rewrite chunks_concat. apply firstn_all2.
    rewrite newest_first_length. fold (count st). unfold n in *. nia.
  - intros i Hi%in_seq. unfold page_data.
    destruct (listing_positive st
                (PaginationQuery.Build (Some (Fin (Z.of_nat (S i))))
                   (Some (Fin l))) l (or_else_Fin l _ ltac:(lia)) Hpos)
      as (c & Hclamp & _ & _ & _ & _ & Hget).
    rewrite Hget. cbn [UsersService.Page.data].
    cbn [PaginationQuery.page] in Hclamp.
    rewrite or_else_Fin in Hclamp by lia. fold n tp in Hclamp.
    unfold clamp_page in Hclamp.
    rewrite bool_decide_eq_false_2 in Hclamp by (intros [= E]; lia).
    cbn [lt] in Hclamp.
    rewrite (proj2 (Z.ltb_ge (Z.of_nat (S i)) 1)) in Hclamp by lia.
    rewrite (proj2 (Z.ltb_ge tp (Z.of_nat (S i)))) in Hclamp by lia.
    inversion Hclamp; subst c. do 2 f_equal. nia.
Qed.

End Pages.

(** ** Listing after writing *)

Section ListingAfterWriting.
Import Js Schema Nest Prisma Spec Coverage.
Context `{!Runtime}.

Lemma stamped_later (l : list User.t) n m :
  (n <= m)%nat ->
  Forall (fun u => (User.createdAt u < n)%nat) l ->
  Forall (fun u => (User.createdAt u < m)%nat) l.
Proof.
  intros Hle HF. eapply Forall_impl; [exact HF|]. cbn. intros u Hu. lia.
Qed.

(** The creation times of the rows of a reached store lie before its
    clock. *)
Lemma reachable_stamped st : reachable st -> stamped st.
Proof.
  unfold stamped.
  induction 1 as [|st userData Hr IH|st id userData Hr IH|st id Hr IH].
  - constructor.
  - destruct (UsersService.createUser st userData) as [[u|e] st'] eqn:E.
    + apply createUser_created in E
        as (props & data & _ & _ & -> & _ & _ & _ & _ & Hat).
      cbn. apply Forall_app. split.
      * eapply stamped_later; [|exact IH]. lia.
      * apply Forall_singleton. lia.
    + destruct (createUser_step st userData)
        as [[e' He] | (? & ? & _ & _ & _ & Hs & _)]; [|congruence].
      rewrite E in He. inversion He; subst. exact IH.
  - destruct (updateUser_step st id userData)
      as [[e ->] | (v & u & Hv & Hu & _ & Hstep)]; [exact IH|].
    cbn zeta in Hstep. rewrite Hstep. cbn [snd rows clock].
    destruct (find_has_id_split _ _ _ Hu) as (l1 & l2 & Hrows & _ & Hrep & _).
    rewrite Hrep. rewrite Hrows in IH.
    apply Forall_app in IH as [I1 I2]. apply Forall_cons in I2 as [Iu I2].
    apply Forall_app. split; [eapply stamped_later; [|exact I1]; lia|].
    apply Forall_cons. split; [cbn; lia|].
    eapply stamped_later; [|exact I2]. lia.
  - destruct (deleteUser_step st id) as [[e ->] | (u & Hu & ->)]; [exact IH|].
    cbn [snd rows clock].
    destruct (find_has_id_split _ _ _ Hu) as (l1 & l2 & Hrows & _ & _ & ->).
    rewrite Hrows in IH.
    apply Forall_app in IH as [I1 I2]. apply Forall_cons in I2 as [_ I2].
    apply Forall_app. split; (eapply stamped_later; [|eassumption]); lia.
Qed.

(** A row newer than all the others comes first in the ordering. *)
Lemma newest_first_snoc l u :
  Forall (fun x => (User.createdAt x <= User.createdAt u)%nat) l ->
  newest_first (l ++ [u]) = u :: newest_first l.
Proof.
  intros Hl. unfold newest_first. rewrite foldr_app. cbn [foldr insert_desc].
  induction Hl as [|x l Hx Hl IH]; [reflexivity|].
  cbn [foldr]. rewrite IH. cbn [insert_desc].
  now rewrite (proj2 (Nat.ltb_ge (User.createdAt u) (User.createdAt x))).
Qed.

(** X17. A user that was just created leads the listing: in a store
    reached by the service, after a create request returned a user, the
    ordering by creation time starts with that user and goes on as
    before, the first page of any positive limit starts with that user,
    and the listing counts one user more. *)
Theorem X17_created_user_leads_listing st userData u st' l :
  reachable st ->
  UsersService.createUser st userData = (Return u, st') ->
  0 < l ->
  newest_first (rows st') = u :: newest_first (rows st)
  /\ page_data st' 1 l
     = u :: firstn (Z.to_nat l - 1) (newest_first (rows st))
  /\ count st' = S (count st).
Proof.
  intros Hr Hc Hpos. pose proof (reachable_stamped st Hr) as Hst.
  apply createUser_created in Hc
    as (props & data & _ & _ & -> & _ & _ & _ & _ & Hat).
  assert (Hnew : newest_first (rows st ++ [u]) = u :: newest_first (rows st)).
  { apply newest_first_snoc. eapply Forall_impl; [exact Hst|].
    cbn. intros x Hx. lia. }
  cbn [rows]. split; [exact Hnew|]. split.
  - unfold page_data.
    destruct (listing_positive
                {| rows := rows st ++ [u]; clock := S (clock st) |}
                (PaginationQuery.Build (Some (Fin 1)) (Some (Fin l))) l
                (or_else_Fin l _ ltac:(lia)) Hpos)
      as (c & Hclamp & Hb & _ & _ & _ & Hget).
    rewrite Hget. cbn [UsersService.Page.data rows].
    assert (c = 1) as ->.
    { cbn [PaginationQuery.page] in Hclamp.
      rewrite or_else_Fin in Hclamp by lia. unfold clamp_page in Hclamp.
      case_bool_decide as E; [now inversion Hclamp|].
      cbn [lt] in Hclamp. rewrite Z.ltb_irrefl in Hclamp.
      destruct (_ <? 1) eqn:E1; [|now inversion Hclamp].
      apply Z.ltb_lt in E1. inversion Hclamp. lia. }
    rewrite Hnew. change (Z.to_nat ((1 - 1) * l)) with 0%nat. cbn [skipn].
    destruct (Z.to_nat l) as [|k] eqn:Ek; [lia|].
    cbn [firstn]. do 2 f_equal. lia.
  - unfold count. cbn [rows]. rewrite length_app. cbn. lia.
Qed.

(** X18. Writes free and take emails. In a store reached by the service,
    an update that returns leaves the emails of the store as they were
    but for the one of the updated row, at its place; when it changed the
    email, the old one is no longer in the store. Deleting a stored user
    takes its email out of the store. So the old email of an updated or
    deleted user can be used by a later create. *)
Theorem X18_writes_free_emails st :
  reachable st ->
  (forall id userData u' st',
     UsersService.updateUser st id userData = (Return (Some u'), st') ->
     exists u before after,
       findUnique_id st id = Some u
       /\ emails st = before ++ User.email u :: after
       /\ emails st' = before ++ User.email u' :: after
       /\ (User.email u' <> User.email u -> User.email u ∉ emails st'))
  /\ (forall u st',
        u ∈ rows st ->
        UsersService.deleteUser st (User.id u) = (Return (Some u), st') ->
        User.email u ∉ emails st').
Proof.
  intros Hr%reachable_consistent.
  pose proof (emails_unique _ Hr) as Hnd. unfold emails in *.
  split.
  - intros id userData u' st' Hupd.
    destruct (updateUser_step st id userData)
      as [[e He] | (v & u & Hv & Hu & _ & Hstep)]; [congruence|].
    cbn zeta in Hstep. rewrite Hstep in Hupd.
    inversion Hupd; subst u' st'; clear Hupd Hstep.
    destruct (find_has_id_split _ _ _ Hu) as (l1 & l2 & Hrows & _ & Hrep & _).
    exists u, (User.email <$> l1), (User.email <$> l2).
    split; [exact Hu|]. cbn [rows]. rewrite Hrep, Hrows in *.
    rewrite !fmap_app, !fmap_cons in *.
    split; [reflexivity|]. split; [reflexivity|].
    intros Hne. apply NoDup_app in Hnd as (H1 & H12 & H2).
    apply NoDup_cons in H2 as [Hu2 H2].
    rewrite elem_of_app, elem_of_cons. intros [Hin|[Heq|Hin]].
    + apply (H12 _ Hin). apply elem_of_cons. now left.
    + now apply Hne.
    + contradiction.
  - intros u st' Hin Hdel.
    pose proof (find_own_id st u (ids_unique _ Hr) Hin) as Hfind.
    unfold UsersService.deleteUser, delete in Hdel. rewrite Hfind in Hdel.
    inversion Hdel; subst st'; clear Hdel. cbn [rows].
    destruct (find_has_id_split _ _ _ Hfind) as (l1 & l2 & Hrows & _ & _ & ->).
    rewrite Hrows, fmap_app, fmap_cons in Hnd. rewrite fmap_app.
    apply NoDup_app in Hnd as (H1 & H12 & H2).
    apply NoDup_cons in H2 as [Hu2 H2].
    rewrite elem_of_app. intros [Hx|Hx]; [|contradiction].
    apply (H12 _ Hx). apply elem_of_cons. now left.
Qed.

End ListingAfterWriting.

(** ** The further properties on concrete requests *)

Section ConcreteFurther.
Import Js Schema Nest Prisma Spec Coverage.
Local Existing Instance Sample.plain.

Ltac by_decision := apply (bool_decide_unpack _); vm_compute; exact I.


Lemma X2_create_then_get_witness :
  exists u st',
    UsersService.createUser Prisma.empty
      (Some (Sample.user_body "Al" "a@x.com")) = (Return u, st')
    /\ UsersService.getUserById st' (User.id u) = Return (Some u).
Proof.
  assert (Hc : exists u st',
            UsersService.createUser Prisma.empty
              (Some (Sample.user_body "Al" "a@x.com")) = (Return u, st'))
    by (eexists _, _; vm_compute; reflexivity).
  destruct Hc as (u & st' & Hc). exists u, st'. split; [exact Hc|].
  exact (proj1 (X2_create_then_get Prisma.empty _ u st' reach_empty Hc)).
Defined.

Lemma X3_get_by_id_witness :
  UsersController.GET_one Sample.store12 "42"
  = {| status := 200; body := inl UsersController.not_found_envelope |}.
Proof.
  apply (proj1 (proj2 (X3_get_by_id Sample.store12 "42"))).
  by_decision.
Defined.

Lemma X4_delete_present_witness :
  exists u st',
    rows Sample.store1 = [u]
    /\ UsersService.deleteUser Sample.store1 (User.id u)
       = (Return (Some u), st')
    /\ count Sample.store1 = S (count st').
Proof.
  assert (Hu : exists u, rows Sample.store1 = [u])
    by (eexists; vm_compute; reflexivity).
  destruct Hu as (u & Hu).
  assert (Hin : u ∈ rows Sample.store1)
    by (rewrite Hu; apply elem_of_cons; now left).
  destruct (X4_delete_present Sample.store1 u
              (populate_reachable _ _ reach_empty) Hin)
    as (st' & Hd & Hc & _).
  exists u, st'. auto.
Defined.

Lemma X5_create_then_delete_witness :
  exists u st1 st2,
    UsersService.createUser Sample.store1
      (Some (Sample.user_body "Bo" "b@x.com")) = (Return u, st1)
    /\ UsersService.deleteUser st1 (User.id u) = (Return (Some u), st2)
    /\ rows st2 = rows Sample.store1.
Proof.
  assert (Hc : exists u st1,
            UsersService.createUser Sample.store1
              (Some (Sample.user_body "Bo" "b@x.com")) = (Return u, st1))
    by (eexists _, _; vm_compute; reflexivity).
  destruct Hc as (u & st1 & Hc).
  destruct (X5_create_then_delete Sample.store1 _ u st1
              (populate_reachable _ _ reach_empty) Hc) as (st2 & Hd & Hrows).
  exists u, st1, st2. auto.
Defined.

Lemma X6_writes_are_atomic_witness :
  snd (UsersService.createUser Sample.store1
         (Some (Sample.user_body "Bo" "A@x.com")))
  = Sample.store1.
Proof.
  eapply (proj1 (X6_writes_are_atomic Sample.store1 "0" _)).
  vm_compute. reflexivity.
Defined.


Lemma X8_update_frame_witness :
  exists u' st',
    UsersService.updateUser Sample.store1 "0"
      (Some (Obj [("name", Str " Alice ")])) = (Return (Some u'), st')
    /\ User.name u' = "Alice"
    /\ User.id u' = "0".
Proof.
  assert (Hu : exists u' st',
            UsersService.updateUser Sample.store1 "0"
              (Some (Obj [("name", Str " Alice ")]))
            = (Return (Some u'), st'))
    by (eexists _, _; vm_compute; reflexivity).
  destruct Hu as (u' & st' & Hu).
  destruct (X8_update_frame Sample.store1 "0" _ u' st' Hu)
    as (u & _ & Hid & _ & _ & _ & _ & _ & _ & _ & _ & _ & Hname & _).
  exists u', st'. split; [exact Hu|]. split; [|exact Hid].
  rewrite (Hname " Alice " eq_refl). reflexivity.
Defined.

Lemma X9_create_body_is_update_body_witness :
  exists d,
    safeParse UpdateUserSchema (Some (Sample.user_body "Al" "a@x.com"))
    = Zod.Success (as_update d).
Proof.
  assert (Hv : exists d,
            safeParse CreateUserSchema
              (Some (Sample.user_body "Al" "a@x.com")) = Zod.Success d)
    by (eexists; vm_compute; reflexivity).
  destruct Hv as (d & Hv). exists d.
  exact (proj1 (X9_create_body_is_update_body _ d) Hv).
Defined.

Lemma X10_create_missing_field_witness :
  exists errors e,
    UsersService.createUser Sample.store1
      (Some (Obj [("name", Str "Al")]))
    = (Throw (BadRequest_object "Validation failed" errors), Sample.store1)
    /\ e ∈ errors
    /\ FieldError.field e = "email".
Proof.
  assert (Hk : "email" ∈ required_keys) by by_decision.
  destruct (X10_create_missing_field Sample.store1
              [("name", Str "Al")] "email" Hk eq_refl)
    as (errors & e & H1 & H2 & H3 & _).
  exists errors, e. auto.
Defined.

Lemma X11_readable_errors_witness :
  FieldError.field
    (UsersService.format_issue None
       (Zod.Issue [Name "skills"; Index 0; Name "field"] "Required"))
  = "skills.0.field".
Proof.
  pose proof (X11_readable_errors None
                (Zod.Issue [Name "skills"; Index 0; Name "field"] "Required"))
    as H.
  cbv zeta in H. destruct H as (_ & H & _).
  rewrite H; [reflexivity|]. vm_compute. discriminate.
Defined.

Lemma X12_pages_cover_the_table_witness :
  concat (map (fun i => page_data Sample.store12 (Z.of_nat (S i)) 5)
              (seq 0 (Z.to_nat (- ((- Z.of_nat (count Sample.store12)) / 5)))))
  = newest_first (rows Sample.store12).
Proof.
  apply (X12_pages_cover_the_table Sample.store12 5). lia.
Defined.

Lemma X13_page_contents_witness :
  exists r c tp,
    UsersService.getAllUsers Sample.store12
      (Some (PaginationQuery.Build (Some (Fin 3)) None)) = Return r
    /\ UsersService.Page.currentPage r = Fin c
    /\ UsersService.Page.totalPages r = Fin tp
    /\ Z.of_nat (length (UsersService.Page.data r))
       = Z.min 5 (Z.of_nat (count Sample.store12) - (c - 1) * 5).
Proof.
  destruct (X13_page_contents Sample.store12
              (PaginationQuery.Build (Some (Fin 3)) None) 5)
    as (r & c & tp & H1 & H2 & H3 & H4 & _); [reflexivity | lia |].
  exists r, c, tp. auto.
Defined.

Lemma X14_body_guard_witness :
  UsersService.updateUser Sample.store1 "0" (Some (Str "name"))
  = (Throw (BadRequest_text "Invalid input: Expected an object"),
     Sample.store1).
Proof.
  apply (proj2 (X14_body_guard Sample.store1 "0" (Some (Str "name")))).
  intros props. discriminate.
Defined.

Lemma X15_create_validation_sound_witness :
  exists d,
    safeParse CreateUserSchema (Some (Sample.user_body "Al" "a@x.com"))
    = Zod.Success d
    /\ (6 <= String.length (CreateUserDto.password d) <= 100)%nat.
Proof.
  assert (Hv : exists d,
            safeParse CreateUserSchema
              (Some (Sample.user_body "Al" "a@x.com")) = Zod.Success d)
    by (eexists; vm_compute; reflexivity).
  destruct Hv as (d & Hv). exists d. split; [exact Hv|].
  destruct (X15_create_validation_sound _ d Hv)
    as (_ & _ & _ & _ & _ & (_ & Hpw) & _).
  exact Hpw.
Defined.

Lemma X16_stored_users_conformant_witness :
  Forall schema_conformant (rows Sample.store12).
Proof.
  apply X16_stored_users_conformant. apply populate_reachable. constructor.
Defined.

Lemma X17_created_user_leads_listing_witness :
  exists u st',
    UsersService.createUser Sample.store1
      (Some (Sample.user_body "Bo" "b@x.com")) = (Return u, st')
    /\ page_data st' 1 5
       = u :: firstn (Z.to_nat 5 - 1) (newest_first (rows Sample.store1)).
Proof.
  assert (Hc : exists u st',
            UsersService.createUser Sample.store1
              (Some (Sample.user_body "Bo" "b@x.com")) = (Return u, st'))
    by (eexists _, _; vm_compute; reflexivity).
  destruct Hc as (u & st' & Hc). exists u, st'. split; [exact Hc|].
  apply (X17_created_user_leads_listing Sample.store1 _ u st' 5
           (populate_reachable _ _ reach_empty) Hc).
  lia.
Defined.

Lemma X18_writes_free_emails_witness :
  exists u st',
    rows Sample.store1 = [u]
    /\ UsersService.deleteUser Sample.store1 (User.id u)
       = (Return (Some u), st')
    /\ User.email u ∉ emails st'.
Proof.
  assert (Hd : exists u st',
            rows Sample.store1 = [u]
            /\ UsersService.deleteUser Sample.store1 (User.id u)
               = (Return (Some u), st'))
    by (eexists _, _; split; vm_compute; reflexivity).
  destruct Hd as (u & st' & Hu & Hd).
  exists u, st'. split; [exact Hu|]. split; [exact Hd|].
  apply (proj2 (X18_writes_free_emails Sample.store1
                  (populate_reachable _ _ reach_empty)) u st'); [|exact Hd].
  rewrite Hu. apply elem_of_cons. now left.
Defined.

End ConcreteFurther.
